(** * VedaVision: image intake, analysis request and result interpretation

    A shallow embedding of the non-presentational logic of the application:
    - [services/geminiService]: [analyzePlantImage] (prefix stripping, media
      type inference, the external call, the consistency correction);
    - [components/ImageUploader]: [processFile], [stopCamera], [capturePhoto];
    - [App]: [handleImageSelect];
    - [components/PlantDetails]: the branch on [data.identified].

    JavaScript strings are sequences of UTF-16 code units, objects are finite
    maps from property names to values, and the browser and the external
    service are explicit inputs of the functions that consult them. *)

From Stdlib Require Import ZArith NArith String Ascii List Bool Lia SpecFloat.
From Stdlib Require Import DecimalString.
From stdpp Require Import base option list gmap.

Open Scope N_scope.
Set Warnings "-register-all,-clear-no-such-hyp".

(** ** JavaScript strings *)

Module JsString.

(** A string is the list of its UTF-16 code units. *)
Abbreviation jsstring := (list N).

(** Code unit of an ASCII character, and the string of an ASCII literal. *)
Definition cu (c : ascii) : N := N_of_ascii c.
Definition js (s : string) : jsstring := cu <$> list_ascii_of_string s.

(** [s.split(sep)] for a separator of one code unit: the pieces between the
    occurrences of [sep], never an empty array. *)
Fixpoint split (sep : N) (s : jsstring) : list jsstring :=
  match s with
  | [] => [[]]
  | c :: s' =>
      if c =? sep then [] :: split sep s'
      else match split sep s' with
           | [] => [[c]]
           | piece :: pieces => (c :: piece) :: pieces
           end
  end.

(** [s.startsWith(l)], returning what follows [l]. *)
Fixpoint strip_prefix (l s : jsstring) : option jsstring :=
  match l, s with
  | [], _ => Some s
  | _ :: _, [] => None
  | a :: l', c :: s' => if a =? c then strip_prefix l' s' else None
  end.

(** Truthiness of a string: only the empty string is falsy. *)
Definition nonempty (s : jsstring) : bool :=
  match s with [] => false | _ :: _ => true end.

End JsString.
Import JsString.

(** ** Regular expressions (the fragment the source uses)

    Backtracking matching in the order ECMAScript prescribes: greedy
    quantifiers try the longest repetition first, [match] without the [g]
    flag returns the leftmost match as the array [whole; group 1; ...]. *)

Module Regex.

Inductive regex :=
| RChars (l : jsstring)          (* a run of literal characters *)
| RPlus (p : N -> bool)          (* [class]+ *)
| RStar (p : N -> bool)          (* [class]*, and .* with the class of . *)
| RSeq (r1 r2 : regex)
| RGroup (r : regex).            (* ( r ), capturing *)

Definition in_range (lo hi : ascii) (c : N) : bool :=
  (cu lo <=? c) && (c <=? cu hi).

(** [.] without the [s] flag: anything but a line terminator. *)
Definition dot (c : N) : bool :=
  negb ((c =? 10) || (c =? 13) || (c =? 8232) || (c =? 8233)).

Section Matching.
Context {A : Type}.

(** Greedy repetition of a character class, then the continuation [k];
    when [k] fails on the longer repetition the shorter one is tried. *)
Fixpoint star (p : N -> bool) (s : jsstring) (k : jsstring -> option A)
  : option A :=
  match s with
  | c :: s' =>
      if p c then
        match star p s' k with
        | Some r => Some r
        | None => k s
        end
      else k s
  | [] => k []
  end.

(** [rmatch r s caps k]: match [r] at the start of [s], with the groups
    closed so far in [caps]; [k] receives the rest of the input. *)
Fixpoint rmatch (r : regex) (s : jsstring) (caps : list jsstring)
    (k : jsstring -> list jsstring -> option A) : option A :=
  match r with
  | RChars l =>
      match strip_prefix l s with
      | Some s' => k s' caps
      | None => None
      end
  | RStar p => star p s (fun s' => k s' caps)
  | RPlus p =>
      match s with
      | c :: s' => if p c then star p s' (fun s'' => k s'' caps) else None
      | [] => None
      end
  | RSeq r1 r2 => rmatch r1 s caps (fun s' caps' => rmatch r2 s' caps' k)
  | RGroup r0 =>
      rmatch r0 s caps
        (fun s' caps' => k s' (caps' ++ [take (length s - length s') s]))
  end.
End Matching.

(** A match anchored at the start of [s]: the matched text, then the groups. *)
Definition match_here (r : regex) (s : jsstring) : option (list jsstring) :=
  rmatch r s [] (fun rest caps => Some (take (length s - length rest) s :: caps)).

(** [s.match(r)]: the leftmost position with a match, or [None] for [null]. *)
Fixpoint exec (r : regex) (s : jsstring) : option (list jsstring) :=
  match match_here r s with
  | Some m => Some m
  | None =>
      match s with
      | [] => None
      | _ :: s' => exec r s'
      end
  end.

End Regex.
Import Regex.

(** ** services/geminiService: preprocessing of the encoded image *)

(** [a-zA-Z0-9] *)
Definition alnum (c : N) : bool :=
  in_range "a" "z" c || in_range "A" "Z" c || in_range "0" "9" c.

(** [a-zA-Z0-9-.+] *)
Definition subtype_char (c : N) : bool :=
  alnum c || (c =? cu "-") || (c =? cu ".") || (c =? cu "+").

Definition comma : N := cu ",".

(** [/data:([a-zA-Z0-9]+\/[a-zA-Z0-9-.+]+).*,.*/] *)
Definition mimeRegex : regex :=
  RSeq (RChars (js "data:"))
    (RSeq (RGroup (RSeq (RPlus alnum) (RSeq (RChars (js "/")) (RPlus subtype_char))))
       (RSeq (RStar dot) (RSeq (RChars [comma]) (RStar dot)))).

(** [x || d] on an optional string: [undefined] and the empty string are falsy. *)
Definition or_else (x : option jsstring) (d : jsstring) : jsstring :=
  match x with
  | Some s => if nonempty s then s else d
  | None => d
  end.

(** [base64Image.split(',')[1] || base64Image] *)
Definition cleanBase64 (base64Image : jsstring) : jsstring :=
  or_else (split comma base64Image !! 1%nat) base64Image.

(** [base64Image.match(/.../)?.[1] || "image/jpeg"] *)
Definition mimeType (base64Image : jsstring) : jsstring :=
  or_else (m ← exec mimeRegex base64Image; m !! 1%nat) (js "image/jpeg").

(** ** JavaScript values *)

Module JsValue.

(** Values as [JSON.parse] and property reads produce them. Numbers are
    IEEE 754 doubles; an array carries its elements and the named
    properties assigned to it. *)
Inductive value :=
| VUndef
| VNull
| VBool (b : bool)
| VNum (x : spec_float)
| VStr (s : jsstring)
| VArr (elems : list value) (props : gmap (list N) value)
| VObj (props : gmap (list N) value).

(** What a [throw] carries. *)
Inductive exn :=
| JsError (message : jsstring)     (* new Error(message) *)
| TypeError
| SyntaxError
| Rejection (reason : value).      (* whatever the service rejects with *)

(** A computation that returns or throws. *)
Definition completion (A : Type) : Type := exn + A.
Definition ret {A} (a : A) : completion A := inr a.
Definition throw {A} (e : exn) : completion A := inl e.
Definition bind {A B} (m : completion A) (f : A -> completion B) : completion B :=
  match m with
  | inl e => inl e
  | inr a => f a
  end.

(** ToBoolean *)
Definition truthy (v : value) : bool :=
  match v with
  | VUndef | VNull => false
  | VBool b => b
  | VNum S754_nan | VNum (S754_zero _) => false
  | VNum _ => true
  | VStr s => nonempty s
  | VArr _ _ | VObj _ => true
  end.

(** [v.k] for a property name [k] that no prototype defines and that is
    neither an array index nor [length] (as [identified] and [commonName]):
    an own property or [undefined]; reading off [null] or [undefined]
    throws. *)
Definition Get (v : value) (k : jsstring) : completion value :=
  match v with
  | VUndef | VNull => throw TypeError
  | VObj props | VArr _ props => ret (default VUndef (props !! k))
  | VBool _ | VNum _ | VStr _ => ret VUndef
  end.

(** [v.k = x] in strict mode, for the same property names. *)
Definition Put (v : value) (k : jsstring) (x : value) : completion value :=
  match v with
  | VObj props => ret (VObj (<[k:=x]> props))
  | VArr elems props => ret (VArr elems (<[k:=x]> props))
  | _ => throw TypeError
  end.

End JsValue.
Import JsValue.

Notation "'let!' x ':=' m 'in' f" := (bind m (fun x => f))
  (at level 10, x name, m at level 100, f at level 200).

(** ** services/geminiService: the analysis call *)

Module Service.

(** The request handed to [ai.models.generateContent]: the inline image and
    its media type. The instruction text, the response schema, the model
    name and the temperature are constants of the call. *)
Record request := { inline_mimeType : jsstring; inline_data : jsstring }.

(** What the function does to the outside, in order. *)
Inductive event :=
| GenerateContent (req : request)              (* the external call *)
| ConsoleError (label : jsstring) (cause : exn).

Definition identified : jsstring := js "identified".
Definition commonName : jsstring := js "commonName".

Definition missingKeyMessage : jsstring :=
  js "API Key is missing. Please configure the environment.".
Definition failureMessage : jsstring :=
  js "Failed to process the image. Please try again.".

(** The safety check on the parsed response:
    [if (data.identified && !data.commonName) data.identified = false;
     return data]. *)
Definition safetyCheck (data : value) : completion value :=
  let! id := Get data identified in
  if truthy id then
    let! name := Get data commonName in
    if negb (truthy name) then Put data identified (VBool false)
    else ret data
  else ret data.

Section Analyze.
(** [process.env.API_KEY], read when the module is loaded. *)
Variable processEnvApiKey : option jsstring.
(** The external service: it rejects, or resolves to a response whose
    [text] is a string or [undefined]. *)
Variable generateContent : request -> completion (option jsstring).
(** [JSON.parse]: [None] when it throws a [SyntaxError]. *)
Variable JSON_parse : jsstring -> option value.

(** [!processEnvApiKey] *)
Definition keyMissing : bool :=
  match processEnvApiKey with
  | Some key => negb (nonempty key)
  | None => true
  end.

(** The body of the [try] block, after the request is built. *)
Definition tryBlock (req : request) : completion value :=
  let! response := generateContent req in
  match response with
  | None => throw (JsError (js "No response from AI"))
  | Some text =>
      if negb (nonempty text) then throw (JsError (js "No response from AI"))
      else
        match JSON_parse text with
        | None => throw SyntaxError
        | Some data => safetyCheck data
        end
  end.

Definition analyzePlantImage (base64Image : jsstring)
  : list event * completion value :=
  if keyMissing then ([], throw (JsError missingKeyMessage))
  else
    let req := {| inline_mimeType := mimeType base64Image;
                  inline_data := cleanBase64 base64Image |} in
    match tryBlock req with
    | inr data => ([GenerateContent req], ret data)
    | inl error =>
        ([GenerateContent req; ConsoleError (js "Gemini API Error:") error],
         throw (JsError failureMessage))
    end.
End Analyze.

(** The requests issued in a run. *)
Definition requests (trace : list event) : list request :=
  omap (fun e => match e with GenerateContent r => Some r | _ => None end) trace.

End Service.
Import Service.

(** ** components/ImageUploader *)

Module Uploader.

(** The part of a [File] the intake reads. *)
Record File := { type : jsstring; size : N }.

(** [e.target.result] of a [FileReader]. *)
Inductive reader_result :=
| RNull
| RString (s : jsstring)
| RArrayBuffer.

(** How a [readAsDataURL] ends: a [load] event, or an error or abort, for
    which the source installs no handler. *)
Inductive reader_outcome :=
| Load (target_result : reader_result)
| ReadFailed.

(** What the component does to its surroundings, in order. *)
Inductive ui_event :=
| Alert (message : jsstring)
| ReadAsDataURL (file : File)
| OnImageSelect (base64 : jsstring).      (* the [onImageSelect] prop *)

Definition invalidTypeMessage : jsstring :=
  js "Please upload a valid image (JPEG, PNG, WebP).".

(** Decimal text of a whole number, as a template literal prints it. *)
Definition decimal (n : N) : jsstring :=
  js (NilEmpty.string_of_uint (N.to_uint n)).

Section Intake.
(** The two constants of [../constants]: the allow-list of media types
    and the size limit, a whole number of megabytes. *)
Variable SUPPORTED_IMAGE_TYPES : list jsstring.
Variable MAX_IMAGE_SIZE_MB : N.

Definition tooLargeMessage : jsstring :=
  js "Image size should be less than " ++ decimal MAX_IMAGE_SIZE_MB ++ js "MB.".

(** [reader.onload]: the callback runs for a non-empty string result. *)
Definition onload (outcome : reader_outcome) : list ui_event :=
  match outcome with
  | Load (RString s) => if nonempty s then [OnImageSelect s] else []
  | Load RNull | Load RArrayBuffer | ReadFailed => []
  end.

Definition processFile (file : File) (outcome : reader_outcome)
  : list ui_event :=
  if negb (bool_decide (type file ∈ SUPPORTED_IMAGE_TYPES)) then
    [Alert invalidTypeMessage]
  else if MAX_IMAGE_SIZE_MB * 1024 * 1024 <? size file then
    [Alert tooLargeMessage]
  else
    ReadAsDataURL file :: onload outcome.
End Intake.

Definition selections (trace : list ui_event) : list jsstring :=
  omap (fun e => match e with OnImageSelect b => Some b | _ => None end) trace.
Definition alerts (trace : list ui_event) : list jsstring :=
  omap (fun e => match e with Alert m => Some m | _ => None end) trace.

(** *** The camera *)

(** A [MediaStream] is the list of its tracks; the device keeps the set of
    the tracks that are still capturing. *)
Abbreviation mediaStream := (list nat).

Record camera := {
  stream : option mediaStream;
  isCameraOpen : bool;
  cameraError : option jsstring;
  isFlashing : bool
}.

(** Component state and the tracks still live on the device. *)
Definition world : Type := camera * gset nat.

Definition setStream (v : option mediaStream) (w : world) : world :=
  ({| stream := v; isCameraOpen := isCameraOpen w.1;
      cameraError := cameraError w.1; isFlashing := isFlashing w.1 |}, w.2).
Definition setIsCameraOpen (v : bool) (w : world) : world :=
  ({| stream := stream w.1; isCameraOpen := v;
      cameraError := cameraError w.1; isFlashing := isFlashing w.1 |}, w.2).
Definition setCameraError (v : option jsstring) (w : world) : world :=
  ({| stream := stream w.1; isCameraOpen := isCameraOpen w.1;
      cameraError := v; isFlashing := isFlashing w.1 |}, w.2).
Definition setIsFlashing (v : bool) (w : world) : world :=
  ({| stream := stream w.1; isCameraOpen := isCameraOpen w.1;
      cameraError := cameraError w.1; isFlashing := v |}, w.2).

(** [track.stop()] *)
Definition stop (track : nat) (w : world) : world := (w.1, w.2 ∖ {[track]}).

(** [stream.getTracks().forEach(track => track.stop())] *)
Definition stopTracks (tracks : mediaStream) (w : world) : world :=
  foldl (fun w track => stop track w) w tracks.

(** [stopCamera], with the [stream] its closure holds. *)
Definition stopCamera (stream : option mediaStream) (w : world) : world :=
  let w1 := match stream with
            | Some tracks => setStream None (stopTracks tracks w)
            | None => w
            end in
  setCameraError None (setIsCameraOpen false w1).

(** What [capturePhoto] finds in the page. *)
Record capture_env := {
  videoWidth : N;                (* [videoRef.current.videoWidth] *)
  context2d : bool;              (* [canvas.getContext('2d')] is not null *)
  dataUrl : jsstring             (* [canvas.toDataURL('image/jpeg', 0.85)] *)
}.

(** [videoRef.current] is set while the video element is on the page, which
    is while the camera view is open and shows no error. *)
Definition videoRef (c : camera) : bool :=
  isCameraOpen c &&
  match cameraError c with
  | Some message => negb (nonempty message)
  | None => true
  end.

(** The click on Take Photo: with a video that has a frame the flash is set
    and the timer started. *)
Definition captureClick (env : capture_env) (w : world) : world * bool :=
  if videoRef w.1 && (0 <? videoWidth env) then (setIsFlashing true w, true)
  else (w, false).

(** The callback [capturePhoto] hands to [setTimeout], on the state it finds
    when it fires, with the [stream] of the render of the click. *)
Definition captureTimer (env : capture_env) (stream : option mediaStream)
    (w : world) : world * list ui_event :=
  if negb (videoRef w.1) then (w, [])
  else if context2d env then
    (setIsFlashing false (stopCamera stream w), [OnImageSelect (dataUrl env)])
  else (setIsFlashing false w, []).

(** [capturePhoto] with nothing happening between the click and the timer. *)
Definition capturePhoto (env : capture_env) (stream : option mediaStream)
    (w : world) : world * list ui_event :=
  match captureClick env w with
  | (w1, true) => captureTimer env stream w1
  | (w1, false) => (w1, [])
  end.

(** The stream is released: no handle in the state, no track of it live. *)
Definition released (tracks : mediaStream) (w : world) : Prop :=
  stream w.1 = None /\ forall track, track ∈ tracks -> track ∉ w.2.

End Uploader.
Import Uploader.

(** ** App: the presentation state *)

Module App.

(** The state [handleImageSelect] writes. *)
Record app := {
  selectedImage : option jsstring;
  isAnalyzing : bool;
  result : option value;
  error : option jsstring
}.

(** A call of one of the state setters. *)
Inductive action :=
| SetSelectedImage (v : option jsstring)
| SetResult (v : option value)
| SetError (v : option jsstring)
| SetIsAnalyzing (v : bool).

Definition reduce (st : app) (a : action) : app :=
  match a with
  | SetSelectedImage v =>
      {| selectedImage := v; isAnalyzing := isAnalyzing st;
         result := result st; error := error st |}
  | SetResult v =>
      {| selectedImage := selectedImage st; isAnalyzing := isAnalyzing st;
         result := v; error := error st |}
  | SetError v =>
      {| selectedImage := selectedImage st; isAnalyzing := isAnalyzing st;
         result := result st; error := v |}
  | SetIsAnalyzing v =>
      {| selectedImage := selectedImage st; isAnalyzing := v;
         result := result st; error := error st |}
  end.

(** One step of a run of the handler. *)
Inductive step :=
| Update (a : action)
| Effect (e : event)                          (* done by the service module *)
| ConsoleLog (label : jsstring) (cause : exn).

(** The state after a stretch of a run, each setter acting when it is
    called. *)
Definition run (steps : list step) (st : app) : app :=
  foldl (fun st s => match s with Update a => reduce st a | _ => st end) st steps.

(** [err.message] of what [analyzePlantImage] throws. *)
Definition message (err : exn) : option jsstring :=
  match err with
  | JsError m => Some m
  | _ => None
  end.

Section Handler.
Variable processEnvApiKey : option jsstring.
Variable generateContent : request -> completion (option jsstring).
Variable JSON_parse : jsstring -> option value.

(** The four updates before the [await]. *)
Definition beforeAwait (base64Image : jsstring) : list step :=
  [Update (SetSelectedImage (Some base64Image));
   Update (SetResult None);
   Update (SetError None);
   Update (SetIsAnalyzing true)].

(** [try { setResult(await ...) } catch (err) { ... } finally { ... }] *)
Definition afterAwait (outcome : completion value) : list step :=
  match outcome with
  | inr analysisData => [Update (SetResult (Some analysisData))]
  | inl err =>
      [ConsoleLog (js "Analysis failed:") err;
       Update (SetError (Some
         (or_else (message err)
            (js "Failed to analyze the image. Please try again."))))]
  end ++ [Update (SetIsAnalyzing false)].

Definition handleImageSelect (base64Image : jsstring) : list step :=
  let analysis :=
    analyzePlantImage processEnvApiKey generateContent JSON_parse base64Image in
  beforeAwait base64Image ++ (Effect <$> analysis.1) ++ afterAwait analysis.2.
End Handler.

End App.
Import App.

(** ** components/PlantDetails *)

Module Details.

(** What the component returns: the yellow card with its heading and
    paragraph, or the detail view of the record (the share button, the
    charts and the sections, all functions of [data]). *)
Inductive view :=
| UncertainView (heading : jsstring) (paragraph : jsstring)
| DetailView (data : value).

Definition uncertain : view :=
  UncertainView (js "Identification Uncertain")
    (js "Our AI couldn't confidently identify a medicinal plant, millet, or pulse in this image. Please try uploading a clearer photo against a plain background.").

Section Component.
(** What the component builds past the early return (the share action, the
    chart, the lists and the cards of the record). Building it can throw, as
    [data.medicinalUses?.map] does when [medicinalUses] is no array. *)
Variable detail : value -> completion view.

(** [if (!data.identified) return <uncertain/>; ... return <detail/>] *)
Definition PlantDetails (data : value) : completion view :=
  let! id := Get data identified in
  if negb (truthy id) then ret uncertain else detail data.
End Component.

End Details.
Import Details.

(** ** The shapes of input the preprocessing is specified on *)

(** [data:<type>/<subtype>;base64,<payload>] *)
Definition prefixed (type subtype payload : jsstring) : jsstring :=
  js "data:" ++ type ++ js "/" ++ subtype ++ js ";base64," ++ payload.

(** ** Predicates the statements use *)

(** The request [analyzePlantImage] builds for an image. *)
Definition requestFor (base64Image : jsstring) : request :=
  {| inline_mimeType := mimeType base64Image;
     inline_data := cleanBase64 base64Image |}.

(** The external call fails, or its answer cannot be used: the service
    rejects, the response has no text or an empty one, or the text does not
    parse. *)
Definition serviceFailed (generateContent : request -> completion (option jsstring))
    (JSON_parse : jsstring -> option value) (req : request) : Prop :=
  (exists reason, generateContent req = throw reason) \/
  generateContent req = ret None \/
  generateContent req = ret (Some []) \/
  (exists text, generateContent req = ret (Some text) /\ JSON_parse text = None).

(** [r] agrees with [data] on everything but the property [identified]. *)
Definition sameButIdentified (data r : value) : Prop :=
  match data, r with
  | VObj props, VObj props' =>
      forall k, k <> identified -> props' !! k = props !! k
  | VArr elems props, VArr elems' props' =>
      elems' = elems /\ forall k, k <> identified -> props' !! k = props !! k
  | _, _ => r = data
  end.

(** ** Sample inputs *)

(** A service that answers every request with the same text, and a parser
    that reads that text as a given value. *)
Definition answering (text : jsstring) : request -> completion (option jsstring) :=
  fun _ => ret (Some text).
Definition readingAs (data : value) : jsstring -> option value :=
  fun _ => Some data.
Definition unreachable : request -> completion (option jsstring) :=
  fun _ => throw (Rejection (VStr (js "fetch failed"))).

(** [{"identified": true, "confidenceScore": 40}]-like: a flag without a name. *)
Definition unnamed : value :=
  VObj {[ identified := VBool true ]}.
(** [{"identified": true, "commonName": "Neem"}] *)
Definition neem : value :=
  VObj (<[ identified := VBool true ]> {[ commonName := VStr (js "Neem") ]}).
(** [{"identified": false, "commonName": "Neem"}] *)
Definition doubtful : value :=
  VObj (<[ identified := VBool false ]> {[ commonName := VStr (js "Neem") ]}).

(** An allow-list and a limit as the spec describes the two constants
    (JPEG, PNG and WebP; a number of megabytes). *)
Definition sampleTypes : list jsstring :=
  [js "image/jpeg"; js "image/png"; js "image/webp"].
Definition sampleLimit : N := 5.
Definition smallPng : File := {| type := js "image/png"; size := 2048 |}.
Definition textFile : File := {| type := js "text/plain"; size := 2048 |}.

(** A camera showing a stream of one track, and a page in which the canvas
    gives no 2D context. *)
Definition liveCamera : camera :=
  {| stream := Some [7%nat]; isCameraOpen := true;
     cameraError := None; isFlashing := false |}.
Definition framing : capture_env :=
  {| videoWidth := 1280; context2d := true;
     dataUrl := js "data:image/jpeg;base64,AAAA" |}.
Definition noContext : capture_env :=
  {| videoWidth := 1280; context2d := false; dataUrl := [] |}.

(** A state left behind by an earlier scan. *)
Definition afterScan : app :=
  {| selectedImage := Some (js "data:image/png;base64,BBBB"); isAnalyzing := false;
     result := Some neem; error := Some failureMessage |}.

(** ** components/ImageUploader: drops, opening the camera, what is shown *)

Module UploaderEvents.

(** [s.includes(sub)] *)
Fixpoint includes (s sub : jsstring) : bool :=
  match strip_prefix sub s with
  | Some _ => true
  | None =>
      match s with
      | [] => false
      | _ :: s' => includes s' sub
      end
  end.

(** [handleDrag]: the new [dragActive] for an event of the given type. *)
Definition handleDrag (eventType : jsstring) (dragActive : bool) : bool :=
  if bool_decide (eventType = js "dragenter") || bool_decide (eventType = js "dragover")
  then true
  else if bool_decide (eventType = js "dragleave") then false
  else dragActive.

Section Files.
Variable SUPPORTED_IMAGE_TYPES : list jsstring.
Variable MAX_IMAGE_SIZE_MB : N.

(** [handleDrop] on the files of the drop ([None] for a missing list): the
    new [dragActive] and what [processFile] does with the first file, whose
    read ends as [outcome]. *)
Definition handleDrop (files : option (list File)) (outcome : reader_outcome)
  : bool * list ui_event :=
  (false,
   match files with
   | Some (file :: _) => processFile SUPPORTED_IMAGE_TYPES MAX_IMAGE_SIZE_MB file outcome
   | Some [] | None => []
   end).

(** [handleChange] on the files of the input element. *)
Definition handleChange (files : option (list File)) (outcome : reader_outcome)
  : list ui_event :=
  match files with
  | Some (file :: _) => processFile SUPPORTED_IMAGE_TYPES MAX_IMAGE_SIZE_MB file outcome
  | Some [] | None => []
  end.
End Files.

(** The two requests [startCamera] can make. *)
Inductive constraints :=
| Ideal      (* facingMode 'environment', 1920 x 1080 ideal *)
| Basic.     (* video: true *)

(** What [getUserMedia] rejects with: [err.name || ''] and [err.message || '']. *)
Record media_error := { err_name : jsstring; err_message : jsstring }.

Inductive camera_event :=
| GetUserMedia (c : constraints)
| ConsoleWarn (cause : media_error)
| ConsoleErr (cause : media_error).

(** The page: whether [navigator.mediaDevices.getUserMedia] exists, and how
    each request ends. *)
Record camera_env := {
  mediaDevices : bool;
  getUserMedia : constraints -> media_error + mediaStream
}.

Definition insecureMessage : jsstring :=
  js "Camera access requires a secure connection (HTTPS) or localhost.".
Definition deniedMessage : jsstring :=
  js "Camera permission was denied. Please allow camera access in your browser settings.".
Definition noDeviceMessage : jsstring := js "No camera device found.".
Definition busyMessage : jsstring :=
  js "Camera is currently in use by another application.".
Definition dismissedMessage : jsstring :=
  js "Permission request was dismissed. Please tap 'Try Again' and allow access.".
Definition deviceNotFoundMessage : jsstring := js "Camera device not found.".
Definition unavailableMessage : jsstring := js "Unable to access camera.".

(** The device starts capturing the tracks of a stream it hands out. *)
Definition acquire (tracks : mediaStream) (w : world) : world :=
  (w.1, w.2 ∪ list_to_set tracks).

Section StartCamera.
(** [String.prototype.toLowerCase] *)
Variable toLowerCase : jsstring -> jsstring.

(** The message the outer [catch] of [startCamera] chooses. *)
Definition cameraErrorMessage (err : media_error) : jsstring :=
  let errorName := err_name err in
  let errorMessage := toLowerCase (err_message err) in
  if bool_decide (errorName = js "NotAllowedError")
     || bool_decide (errorName = js "PermissionDeniedError") then deniedMessage
  else if bool_decide (errorName = js "NotFoundError") then noDeviceMessage
  else if bool_decide (errorName = js "NotReadableError") then busyMessage
  else if includes errorMessage (js "dismissed")
          || bool_decide (errorName = js "PermissionDismissedError") then dismissedMessage
  else if includes errorMessage (js "device not found") then deviceNotFoundMessage
  else unavailableMessage.

(** [startCamera], run to its end. *)
Definition startCamera (env : camera_env) (w : world) : world * list camera_event :=
  if negb (mediaDevices env) then
    (setIsCameraOpen true (setCameraError (Some insecureMessage) w), [])
  else
    let w1 := setIsCameraOpen true (setCameraError None w) in
    match getUserMedia env Ideal with
    | inr mediaStream =>
        (setStream (Some mediaStream) (acquire mediaStream w1), [GetUserMedia Ideal])
    | inl warned =>
        match getUserMedia env Basic with
        | inr mediaStream =>
            (setStream (Some mediaStream) (acquire mediaStream w1),
             [GetUserMedia Ideal; ConsoleWarn warned; GetUserMedia Basic])
        | inl err =>
            (setCameraError (Some (cameraErrorMessage err)) w1,
             [GetUserMedia Ideal; ConsoleWarn warned; GetUserMedia Basic;
              ConsoleErr err])
        end
    end.
End StartCamera.

(** The cleanup of the effect on [stream], run when the stream changes and
    when the component goes away, with the stream of the render it is from. *)
Definition streamCleanup (stream : option mediaStream) (w : world) : world :=
  match stream with
  | Some tracks => stopTracks tracks w
  | None => w
  end.

(** What the component shows. *)
Inductive camera_body :=
| ErrorPanel (message : jsstring)     (* with Try Again and Cancel *)
| Video (controls : bool).            (* with Close Camera and Take Photo *)

Inductive uploader_view :=
| DropZone (dragActive : bool)        (* with Open Camera and Gallery *)
| CameraView (flash loading : bool) (body : camera_body).

(** Truthiness of a state that holds a string or [null]. *)
Definition shown (x : option jsstring) : option jsstring :=
  match x with
  | Some s => if nonempty s then Some s else None
  | None => None
  end.

Definition ImageUploader (dragActive : bool) (c : camera) : uploader_view :=
  if isCameraOpen c then
    CameraView (isFlashing c)
      (negb (bool_decide (is_Some (stream c)))
       && negb (bool_decide (is_Some (shown (cameraError c)))))
      match shown (cameraError c) with
      | Some message => ErrorPanel message
      | None => Video (bool_decide (is_Some (stream c)))
      end
  else DropZone dragActive.

(** The buttons a view offers. *)
Inductive control :=
| OpenCamera | Gallery | TryAgain | Cancel | CloseCamera | TakePhoto.

Definition controls (v : uploader_view) : list control :=
  match v with
  | DropZone _ => [OpenCamera; Gallery]
  | CameraView _ _ (ErrorPanel _) => [TryAgain; Cancel]
  | CameraView _ _ (Video true) => [CloseCamera; TakePhoto]
  | CameraView _ _ (Video false) => []
  end.

End UploaderEvents.
Import UploaderEvents.

(** ** App: reset, the loading phrases, what is shown *)

Module AppView.

Definition loadingStages : list jsstring :=
  [js "Scanning botanical structure..."; js "Analyzing plant features...";
   js "Identifying species..."; js "Compiling Ayurvedic data..."].

(** [(prev) => (prev + 1) % loadingStages.length] *)
Definition nextLoadingStep (prev : N) : N :=
  (prev + 1) mod N.of_nat (length loadingStages).

Inductive window_effect :=
| ScrollToTop.        (* window.scrollTo({ top: 0, behavior: 'smooth' }) *)

Definition resetApp (st : app) : app * list window_effect :=
  (foldl reduce st [SetSelectedImage None; SetResult None; SetError None],
   [ScrollToTop]).

(** What [{!isAnalyzing && result && <PlantDetails data={result} />}] puts
    on the page: nothing, a falsy result itself, or the component. *)
Inductive result_slot :=
| NoDetails
| RawChild (v : value)
| Details (rendered : completion view).

(** The page below the header: the splash screen, the uploader, or the
    selected image with its panels. *)
Inductive app_view :=
| Splash
| Home
| Scan (image : jsstring)
       (overlay : option jsstring)      (* the phrase of the scanning overlay *)
       (errorPanel : option jsstring)   (* with Try Again *)
       (details : result_slot)
       (skeleton : bool)
       (newScanButton : bool).

(** The render of [App], given what [PlantDetails] builds for an identified
    record; it throws when the overlay reads a loading stage that does not
    exist. *)
Definition App (detail : value -> completion view)
    (showSplash : bool) (loadingStep : N) (st : app)
  : completion app_view :=
  if showSplash then ret Splash
  else
    match shown (selectedImage st) with
    | None => ret Home
    | Some image =>
        let! overlay :=
          if isAnalyzing st then
            match loadingStages !! N.to_nat loadingStep with
            | Some phrase => ret (Some phrase)
            | None => throw TypeError
            end
          else ret None in
        ret (Scan image overlay
               (shown (error st))
               (if isAnalyzing st then NoDetails
                else match result st with
                     | None => NoDetails
                     | Some v => if truthy v then Details (PlantDetails detail v)
                                 else RawChild v
                     end)
               (isAnalyzing st)
               (negb (isAnalyzing st)))
    end.

Section Wiring.
Variable processEnvApiKey : option jsstring.
Variable generateContent : request -> completion (option jsstring).
Variable JSON_parse : jsstring -> option value.

(** [<ImageUploader onImageSelect={handleImageSelect} />]: the run of the
    handler for every image the uploader hands over. *)
Definition onImageSelect (trace : list ui_event) : list step :=
  selections trace ≫= handleImageSelect processEnvApiKey generateContent JSON_parse.
End Wiring.

End AppView.
Import AppView.

(** ** components/PlantDetails: the parts of the detail view *)

Module DetailsParts.

Inductive icon :=
| CookingPot | Coffee | Utensils | Droplets | Wind | Flame | ScrollText.

Section MethodIcon.
Variable toLowerCase : jsstring -> jsstring.

Definition getMethodIcon (methodName : jsstring) : icon :=
  let name := toLowerCase methodName in
  if includes name (js "decoction") || includes name (js "boil")
     || includes name (js "soup") || includes name (js "kashayam")
     || includes name (js "cook") then CookingPot
  else if includes name (js "tea") || includes name (js "infusion")
          || includes name (js "drink") || includes name (js "hot water") then Coffee
  else if includes name (js "paste") || includes name (js "poultice")
          || includes name (js "chutney") || includes name (js "kalka")
          || includes name (js "ground") then Utensils
  else if includes name (js "oil") || includes name (js "juice")
          || includes name (js "extract") || includes name (js "ghee")
          || includes name (js "swarasa") then Droplets
  else if includes name (js "powder") || includes name (js "churna")
          || includes name (js "dust") || includes name (js "ash") then Wind
  else if includes name (js "smoke") || includes name (js "burn")
          || includes name (js "bhasma") then Flame
  else ScrollText.
End MethodIcon.










(** [l.join(sep)] on an array of strings. *)
Fixpoint join (sep : jsstring) (l : list jsstring) : jsstring :=
  match l with
  | [] => []
  | [x] => x
  | x :: l' => x ++ sep ++ join sep l'
  end.

(** How the share action ends up on the page and the device. *)
Inductive share_event :=
| NavigatorShare (title text : jsstring)
| ClipboardWrite (text : jsstring)
| SetCopied (v : bool)
| ShareConsoleError.

(** The page: whether [navigator.share] exists, and the clipboard, which is
    missing ([None], as on an insecure origin) or takes or refuses a write. *)
Record share_env := {
  hasShare : bool;
  clipboard : option bool
}.

(** The leaf emoji, the pill emoji and the bullet, in code units. *)
Definition leaf : jsstring := [55356; 57151].
Definition pill : jsstring := [55357; 56458].
Definition bullet : jsstring := [8226].
Definition newline : jsstring := [10].
Definition quote : jsstring := [34].

Section Share.
(** [ToString], as a template literal applies it. *)
Variable toString : value -> jsstring.

(** [data.medicinalUses?.slice(0, 4).map(u => `• ${u}`).join('\n')] *)
Definition usesLines (data : value) : completion value :=
  let! uses := Get data (js "medicinalUses") in
  match uses with
  | VUndef | VNull => ret VUndef
  | VArr elems _ =>
      ret (VStr (join newline
                   ((fun u => bullet ++ js " " ++ toString u) <$> take 4 elems)))
  | _ => throw TypeError
  end.

Definition shareText (data : value) : completion jsstring :=
  let! commonName := Get data commonName in
  let! botanicalName := Get data (js "botanicalName") in
  let! ayurvedicName := Get data (js "ayurvedicName") in
  let! shortDescription := Get data (js "shortDescription") in
  let! lines := usesLines data in
  ret (leaf ++ js " *" ++ toString commonName ++ js "* ("
         ++ toString botanicalName ++ js ")" ++ newline ++ newline
       ++ js "Ayurvedic Name: " ++ toString ayurvedicName ++ newline ++ newline
       ++ quote ++ toString shortDescription ++ quote ++ newline ++ newline
       ++ pill ++ js " *Medicinal Uses:*" ++ newline ++ toString lines
         ++ newline ++ newline
       ++ js "Powered by VedaVision AI").

Definition handleShare (env : share_env) (data : value)
  : completion (list share_event) :=
  let! text := shareText data in
  if hasShare env then
    let! commonName := Get data commonName in
    ret [NavigatorShare (js "VedaVision: " ++ toString commonName) text]
  else
    match clipboard env with
    | Some true => ret [ClipboardWrite text; SetCopied true; SetCopied false]
    | Some false => ret [ClipboardWrite text; ShareConsoleError]
    | None => ret [ShareConsoleError]
    end.
End Share.

End DetailsParts.
Import DetailsParts.

(** ** More sample inputs *)

(** A detail view that is built, and one that throws while it is built. *)
Definition builds : value -> completion view := fun data => ret (DetailView data).
Definition breaks : value -> completion view := fun _ => throw TypeError.

(** Lower case of the letters A to Z. *)
Definition asciiLower (s : jsstring) : jsstring :=
  (fun c => if in_range "A" "Z" c then c + 32 else c) <$> s.

(** A [ToString] for strings and [undefined]. *)
Definition plainToString (v : value) : jsstring :=
  match v with
  | VStr s => s
  | VUndef => js "undefined"
  | VNull => js "null"
  | VBool true => js "true"
  | VBool false => js "false"
  | _ => js "[object Object]"
  end.

Definition permissionDenied : media_error :=
  {| err_name := js "NotAllowedError"; err_message := js "Permission denied" |}.
Definition overconstrained : media_error :=
  {| err_name := js "OverconstrainedError"; err_message := [] |}.

(** A page without a camera API, one whose camera refuses both requests, and
    one that only serves the basic request. *)
Definition insecurePage : camera_env :=
  {| mediaDevices := false; getUserMedia := fun _ => inl permissionDenied |}.
Definition refusingPage : camera_env :=
  {| mediaDevices := true; getUserMedia := fun _ => inl permissionDenied |}.
Definition basicOnlyPage : camera_env :=
  {| mediaDevices := true;
     getUserMedia := fun c => match c with
                              | Ideal => inl overconstrained
                              | Basic => inr [3%nat; 4%nat]
                              end |}.

Definition closedCamera : camera :=
  {| stream := None; isCameraOpen := false; cameraError := None; isFlashing := false |}.

(** [{"identified": true, "commonName": 0}] *)
Definition zeroNamed : value :=
  VObj (<[ identified := VBool true ]> {[ commonName := VNum (S754_zero false) ]}).


(** A record with six uses and no Ayurvedic properties. *)
Definition tulsi : value :=
  VObj (<[ identified := VBool true ]>
        (<[ commonName := VStr (js "Tulsi") ]>
         {[ js "medicinalUses" :=
              VArr [VStr (js "a"); VStr (js "b"); VStr (js "c");
                    VStr (js "d"); VStr (js "e"); VStr (js "f")] ∅ ]})).

(** * Properties *)

(** ** Strings and matching *)

Example split_pieces : split comma (js "a,b,,c") = [js "a"; js "b"; []; js "c"].
Proof. reflexivity. Qed.

Example split_of_empty : split comma [] = [[]].
Proof. reflexivity. Qed.

(** The pattern is not anchored, and [.*,] gives characters back until a
    comma follows. *)
Example mimeType_leftmost :
  mimeType (js "see data:image/webp;charset=x,AA,BB") = js "image/webp".
Proof. vm_compute. reflexivity. Qed.

Example mimeType_without_slash : mimeType (js "data:image;base64,AAAA") = js "image/jpeg".
Proof. vm_compute. reflexivity. Qed.

Example mimeType_across_lines :
  mimeType (js "data:image/png" ++ [10] ++ js ",AAAA") = js "image/jpeg".
Proof. vm_compute. reflexivity. Qed.

Lemma split_without sep (s : jsstring) : sep ∉ s -> split sep s = [s].
Proof.
  induction s as [|c s IH]; intros Hs; simpl; [done|].
  apply not_elem_of_cons in Hs as [Hc Hs].
  destruct (N.eqb_spec c sep) as [->|_]; [done|].
  by rewrite IH.
Qed.

Lemma split_at_first sep (a b : jsstring) :
  sep ∉ a -> split sep (a ++ sep :: b) = a :: split sep b.
Proof.
  induction a as [|c a IH]; intros Ha; simpl.
  - by rewrite N.eqb_refl.
  - apply not_elem_of_cons in Ha as [Hc Ha].
    destruct (N.eqb_spec c sep) as [->|_]; [done|].
    by rewrite IH.
Qed.

Lemma strip_prefix_app (l s : jsstring) : strip_prefix l (l ++ s) = Some s.
Proof.
  induction l as [|a l IH]; simpl; [by destruct s|].
  by rewrite N.eqb_refl.
Qed.

Lemma strip_prefix_suffix (l s s' : jsstring) :
  strip_prefix l s = Some s' -> s' `suffix_of` s.
Proof.
  revert s; induction l as [|a l IH]; intros s; simpl.
  - destruct s; intros [= <-]; done.
  - destruct s as [|c s]; [done|].
    destruct (a =? c); [|done].
    intros H%IH. by apply suffix_cons_r.
Qed.

Lemma taken_before (a b : jsstring) :
  take (length (a ++ b) - length b) (a ++ b) = a.
Proof.
  rewrite length_app.
  replace (length a + length b - length b)%nat with (length a) by lia.
  by rewrite take_app_length.
Qed.

Section StarLemmas.
Context {A : Type}.
Implicit Types (p : N -> bool) (k : jsstring -> option A).

(** The longest repetition wins when the continuation accepts after it. *)
Lemma star_greedy p t rest k r :
  forallb p t = true ->
  match rest with c :: _ => p c = false | [] => True end ->
  k rest = Some r ->
  star p (t ++ rest) k = Some r.
Proof.
  intros Ht Hrest Hk. induction t as [|c t IH]; simpl in *.
  - destruct rest as [|c rest]; simpl; [done|]. by rewrite Hrest.
  - apply andb_prop in Ht as [-> Ht]. by rewrite IH.
Qed.

Lemma star_accepts_here p s k : is_Some (k s) -> is_Some (star p s k).
Proof.
  intros Hk. destruct s as [|c s]; simpl; [done|].
  destruct (p c); [|done]. by destruct (star p s k).
Qed.

(** Some repetition is accepted as soon as one split is. *)
Lemma star_accepts p a s k :
  forallb p a = true -> is_Some (k s) -> is_Some (star p (a ++ s) k).
Proof.
  intros Ha Hk. induction a as [|c a IH]; simpl in *.
  - by apply star_accepts_here.
  - apply andb_prop in Ha as [-> Ha].
    destruct (IH Ha) as [r ->]. done.
Qed.

(** Whatever is returned was returned by the continuation. *)
Lemma star_returns (P : A -> Prop) p s k r :
  (forall s' r', k s' = Some r' -> P r') -> star p s k = Some r -> P r.
Proof.
  intros Hk. induction s as [|c s IH]; simpl.
  - apply Hk.
  - destruct (p c); [|apply Hk].
    destruct (star p s k) eqn:E; [|apply Hk].
    intros [= <-]. by apply IH.
Qed.

(** Nothing is returned when the continuation rejects every suffix. *)
Lemma star_rejects p s k :
  (forall s', s' `suffix_of` s -> k s' = None) -> star p s k = None.
Proof.
  induction s as [|c s IH]; intros Hk; simpl.
  - by apply Hk.
  - rewrite IH; [|intros s' Hs'; apply Hk; by apply suffix_cons_r].
    rewrite Hk by done. by destruct (p c).
Qed.
End StarLemmas.

(** After the group, [.*,.*] accepts whatever holds a comma behind characters
    other than line terminators, and leaves the group as it was. *)
Lemma tail_accepts (S0 : jsstring) (cap a b : jsstring) :
  forallb dot a = true ->
  exists whole,
    star dot (a ++ comma :: b)
      (fun s1 =>
         match strip_prefix [comma] s1 with
         | Some s2 =>
             star dot s2 (fun s3 => Some [take (length S0 - length s3) S0; cap])
         | None => None
         end) = Some [whole; cap].
Proof.
  intros Ha.
  match goal with |- context [star dot _ ?k] => set (K := k) end.
  destruct (star_accepts dot a (comma :: b) K Ha) as [r Hr].
  { unfold K. cbn [strip_prefix]. rewrite N.eqb_refl. by apply star_accepts_here. }
  rewrite Hr.
  pose (P := fun r : list jsstring => exists whole, Some r = Some [whole; cap]).
  apply (star_returns P) in Hr; [done|].
  intros s1 r1. unfold K. destruct (strip_prefix [comma] s1) as [s2|]; [|done].
  apply (star_returns P). intros s3 r3 [= <-]. by eexists.
Qed.

Lemma match_here_prefixed (t st payload : jsstring) :
  t <> [] -> forallb alnum t = true ->
  st <> [] -> forallb subtype_char st = true ->
  exists whole,
    match_here mimeRegex (prefixed t st payload) = Some [whole; t ++ js "/" ++ st].
Proof.
  intros Ht Halnum Hst Hsub.
  destruct t as [|c t]; [done|]. destruct st as [|d st]; [done|].
  simpl in Halnum, Hsub.
  apply andb_prop in Halnum as [Hc Halnum]. apply andb_prop in Hsub as [Hd Hsub].
  unfold match_here, mimeRegex, prefixed.
  cbn [rmatch].
  rewrite strip_prefix_app.
  cbn [List.app]. rewrite Hc.
  set (S0 := js "data:" ++ _).
  set (rest := js ";base64," ++ payload).
  set (S1 := c :: t ++ js "/" ++ d :: st ++ rest).
  destruct (tail_accepts S0 (take (length S1 - length rest) S1)
              (js ";base64") payload eq_refl) as [whole Hwhole].
  exists whole.
  assert (Hcap : take (length S1 - length rest) S1 = (c :: t) ++ js "/" ++ d :: st).
  { replace S1 with (((c :: t) ++ js "/" ++ d :: st) ++ rest).
    - apply taken_before.
    - unfold S1. by rewrite <- !app_assoc. }
  rewrite Hcap in Hwhole.
  apply star_greedy; [done|done|].
  rewrite strip_prefix_app, Hd.
  apply star_greedy; [done|done|].
  rewrite Hcap. exact Hwhole.
Qed.

Lemma exec_leftmost (r : regex) (s : jsstring) m :
  match_here r s = Some m -> exec r s = Some m.
Proof. intros H. destruct s; cbn [exec]; by rewrite H. Qed.

Lemma exec_prefixed (t st payload : jsstring) :
  t <> [] -> forallb alnum t = true ->
  st <> [] -> forallb subtype_char st = true ->
  exists whole,
    exec mimeRegex (prefixed t st payload) = Some [whole; t ++ js "/" ++ st].
Proof.
  intros Ht Halnum Hst Hsub.
  destruct (match_here_prefixed t st payload Ht Halnum Hst Hsub) as [whole H].
  exists whole. by apply exec_leftmost.
Qed.

Lemma mimeType_prefixed (t st payload : jsstring) :
  t <> [] -> forallb alnum t = true ->
  st <> [] -> forallb subtype_char st = true ->
  mimeType (prefixed t st payload) = t ++ js "/" ++ st.
Proof.
  intros Ht Halnum Hst Hsub.
  destruct (exec_prefixed t st payload Ht Halnum Hst Hsub) as [whole H].
  unfold mimeType. rewrite H. simpl. by destruct t.
Qed.

Lemma suffix_without (c : N) (s s' : jsstring) :
  c ∉ s -> s' `suffix_of` s -> c ∉ s'.
Proof. intros Hc [k ->] Hs'. apply Hc. apply elem_of_app. by right. Qed.

Lemma strip_comma_without (s : jsstring) :
  comma ∉ s -> strip_prefix [comma] s = None.
Proof.
  destruct s as [|c s]; [done|]. intros Hs. cbn [strip_prefix].
  destruct (N.eqb_spec comma c) as [<-|_]; [|done].
  exfalso. apply Hs. by left.
Qed.

Lemma match_here_needs_comma (s : jsstring) :
  comma ∉ s -> match_here mimeRegex s = None.
Proof.
  intros Hs. unfold match_here, mimeRegex. cbn [rmatch].
  destruct (strip_prefix (js "data:") s) as [s1|] eqn:E1; [|done].
  apply strip_prefix_suffix in E1. pose proof (suffix_without _ _ _ Hs E1) as H1.
  destruct s1 as [|c s1]; [done|]. destruct (alnum c); [|done].
  apply star_rejects. intros s2 H2.
  assert (comma ∉ s2) as Hs2.
  { eapply suffix_without; [exact H1|]. by apply suffix_cons_r. }
  destruct (strip_prefix (js "/") s2) as [s3|] eqn:E3; [|done].
  apply strip_prefix_suffix in E3. pose proof (suffix_without _ _ _ Hs2 E3) as H3.
  destruct s3 as [|d s3]; [done|]. destruct (subtype_char d); [|done].
  apply star_rejects. intros s4 H4.
  assert (comma ∉ s4) as Hs4.
  { eapply suffix_without; [exact H3|]. by apply suffix_cons_r. }
  apply star_rejects. intros s5 H5.
  rewrite strip_comma_without; [done|]. by eapply suffix_without.
Qed.

Lemma exec_needs_comma (s : jsstring) : comma ∉ s -> exec mimeRegex s = None.
Proof.
  induction s as [|c s IH]; intros Hs; cbn [exec].
  - by rewrite match_here_needs_comma.
  - rewrite match_here_needs_comma by done.
    apply IH. intros H. apply Hs. by right.
Qed.

Lemma class_without (p : N -> bool) (s : jsstring) (c : N) :
  p c = false -> forallb p s = true -> c ∉ s.
Proof.
  intros Hc Hs Hin. apply list_elem_of_In in Hin.
  rewrite forallb_forall in Hs. apply Hs in Hin. congruence.
Qed.

(** The header of a prefixed string holds no comma, so the first comma is the
    one in front of the payload. *)
Lemma split_prefixed (t st payload : jsstring) :
  forallb alnum t = true -> forallb subtype_char st = true ->
  split comma (prefixed t st payload) =
    (js "data:" ++ t ++ js "/" ++ st ++ js ";base64") :: split comma payload.
Proof.
  intros Ht Hst.
  replace (prefixed t st payload)
    with ((js "data:" ++ t ++ js "/" ++ st ++ js ";base64") ++ comma :: payload).
  - apply split_at_first.
    rewrite !not_elem_of_app. repeat split.
    + by apply (bool_decide_unpack (_ ∉ _)).
    + by apply (class_without alnum).
    + by apply (bool_decide_unpack (_ ∉ _)).
    + by apply (class_without subtype_char).
    + by apply (bool_decide_unpack (_ ∉ _)).
  - unfold prefixed. by rewrite <- !app_assoc.
Qed.

Lemma cleanBase64_payload (t st payload : jsstring) :
  forallb alnum t = true -> forallb subtype_char st = true ->
  payload <> [] -> comma ∉ payload ->
  cleanBase64 (prefixed t st payload) = payload.
Proof.
  intros Ht Hst Hne Hp. unfold cleanBase64.
  rewrite split_prefixed, split_without by done.
  by destruct payload.
Qed.

Lemma cleanBase64_raw (s : jsstring) : comma ∉ s -> cleanBase64 s = s.
Proof. intros Hs. unfold cleanBase64. by rewrite split_without. Qed.

Lemma mimeType_raw (s : jsstring) : comma ∉ s -> mimeType s = js "image/jpeg".
Proof. intros Hs. unfold mimeType. by rewrite exec_needs_comma. Qed.

(** ** The preprocessing of [analyzePlantImage] *)

(** C2, as the code has it: for [data:<type>/<subtype>;base64,<payload>] with
    [<type>] in [[a-zA-Z0-9]+], [<subtype>] in [[a-zA-Z0-9-.+]+] and a payload
    that is not empty and holds no comma, the payload is forwarded and the
    media type is [<type>/<subtype>]; a string without a comma is forwarded
    unchanged with the media type [image/jpeg]. *)
Theorem preprocess_prefixed_or_raw (ty subty payload raw : jsstring) :
  ty <> [] -> forallb alnum ty = true ->
  subty <> [] -> forallb subtype_char subty = true ->
  payload <> [] -> comma ∉ payload ->
  comma ∉ raw ->
  (cleanBase64 (prefixed ty subty payload) = payload /\
   mimeType (prefixed ty subty payload) = ty ++ js "/" ++ subty) /\
  (cleanBase64 raw = raw /\ mimeType raw = js "image/jpeg").
Proof.
  intros Ht Halnum Hst Hsub Hne Hp Hraw. repeat split.
  - by apply cleanBase64_payload.
  - by apply mimeType_prefixed.
  - by apply cleanBase64_raw.
  - by apply mimeType_raw.
Qed.

Lemma preprocess_prefixed_or_raw_witness :
  (cleanBase64 (js "data:image/png;base64,AAAA") = js "AAAA" /\
   mimeType (js "data:image/png;base64,AAAA") = js "image/png") /\
  (cleanBase64 (js "AAAA") = js "AAAA" /\ mimeType (js "AAAA") = js "image/jpeg").
Proof.
  apply (preprocess_prefixed_or_raw (js "image") (js "png") (js "AAAA") (js "AAAA"));
    first [ discriminate | reflexivity | apply (bool_decide_unpack (_ ∉ _)); exact I ].
Defined.

(** C2 as written fails on an empty payload: the whole input is forwarded,
    not the (empty) payload. It also fails outside the character classes of
    the pattern and for a payload with a comma in it. *)
Lemma forwarded_data_counterexample :
  (js "data:image/png;base64," = prefixed (js "image") (js "png") [] /\
   cleanBase64 (js "data:image/png;base64,") = js "data:image/png;base64," /\
   cleanBase64 (js "data:image/png;base64,") <> []) /\
  mimeType (prefixed (js "image") (js "x_y") (js "AAAA")) = js "image/x" /\
  cleanBase64 (prefixed (js "image") (js "png") (js "AA,BB")) = js "AA".
Proof. repeat split. discriminate. Qed.

(** C10 as written fails outside the character classes of the pattern: for
    [data:image/x_y;base64,] the media type read is [image/x], not the one
    of the prefix. *)
Lemma empty_payload_media_type_counterexample :
  js "data:image/x_y;base64," = prefixed (js "image") (js "x_y") [] /\
  mimeType (js "data:image/x_y;base64,") = js "image/x" /\
  mimeType (js "data:image/x_y;base64,") <> js "image/x_y".
Proof. repeat split. discriminate. Qed.

(** C10, as the code has it: for [data:<type>/<subtype>;base64,] with
    [<type>] in [[a-zA-Z0-9]+] and [<subtype>] in [[a-zA-Z0-9-.+]+], an
    empty payload behind the comma makes the whole input, header included,
    the forwarded data, and the media type is still [<type>/<subtype>]. *)
Theorem empty_payload_forwards_whole_input (ty subty : jsstring) :
  ty <> [] -> forallb alnum ty = true ->
  subty <> [] -> forallb subtype_char subty = true ->
  cleanBase64 (prefixed ty subty []) = prefixed ty subty [] /\
  mimeType (prefixed ty subty []) = ty ++ js "/" ++ subty.
Proof.
  intros Ht Halnum Hst Hsub. split.
  - unfold cleanBase64. by rewrite split_prefixed.
  - by apply mimeType_prefixed.
Qed.

Lemma empty_payload_forwards_whole_input_witness :
  cleanBase64 (js "data:image/png;base64,") = js "data:image/png;base64," /\
  mimeType (js "data:image/png;base64,") = js "image/png".
Proof.
  apply (empty_payload_forwards_whole_input (js "image") (js "png"));
    first [ discriminate | reflexivity ].
Defined.

(** ** The analysis call and the interpretation of its answer *)

Section AnalysisLemmas.
Variable processEnvApiKey : option jsstring.
Variable generateContent : request -> completion (option jsstring).
Variable JSON_parse : jsstring -> option value.

(** What the safety check returns: the corrected record when the flag is
    truthy and the name falsy, the record itself otherwise. *)
Lemma safetyCheck_returns data r :
  safetyCheck data = ret r ->
  exists id name,
    Get data identified = ret id /\ Get data commonName = ret name /\
    if truthy id && negb (truthy name)
    then Put data identified (VBool false) = ret r
    else r = data.
Proof.
  unfold safetyCheck.
  destruct data as [| |b|x|s|elems props|props]; simpl; try done.
  - intros [= <-]. by exists VUndef, VUndef.
  - intros [= <-]. by exists VUndef, VUndef.
  - intros [= <-]. by exists VUndef, VUndef.
  - intros H. eexists _, _. split; [done|]. split; [done|].
    destruct (truthy (default VUndef (props !! identified))); simpl in *.
    + destruct (truthy (default VUndef (props !! commonName))); simpl in *;
        unfold ret in *; congruence.
    + unfold ret in *; congruence.
  - intros H. eexists _, _. split; [done|]. split; [done|].
    destruct (truthy (default VUndef (props !! identified))); simpl in *.
    + destruct (truthy (default VUndef (props !! commonName))); simpl in *;
        unfold ret in *; congruence.
    + unfold ret in *; congruence.
Qed.

(** The safety check throws only on [null] and [undefined]. *)
Lemma safetyCheck_total data :
  data <> VNull -> data <> VUndef -> exists r, safetyCheck data = ret r.
Proof.
  unfold safetyCheck.
  destruct data as [| |b|x|s|elems props|props]; simpl; try done; intros _ _;
    try (by eexists);
    destruct (truthy (default VUndef (props !! identified))); simpl;
    try (by eexists);
    destruct (truthy (default VUndef (props !! commonName))); simpl; by eexists.
Qed.

Lemma tryBlock_returns req r :
  tryBlock generateContent JSON_parse req = ret r <->
  exists text data,
    generateContent req = ret (Some text) /\ text <> [] /\
    JSON_parse text = Some data /\ safetyCheck data = ret r.
Proof.
  unfold tryBlock. split.
  - destruct (generateContent req) as [e|[text|]]; simpl; try done.
    destruct text as [|c text]; simpl; [done|].
    destruct (JSON_parse (c :: text)) as [data|] eqn:E; [|done].
    intros H. by exists (c :: text), data.
  - intros (text & data & -> & Hne & Hparse & Hcheck). simpl.
    destruct text as [|c text]; [done|]. simpl. by rewrite Hparse.
Qed.

Lemma analyze_returns base64Image r :
  (analyzePlantImage processEnvApiKey generateContent JSON_parse base64Image).2 = ret r <->
  keyMissing processEnvApiKey = false /\
  tryBlock generateContent JSON_parse (requestFor base64Image) = ret r.
Proof.
  unfold analyzePlantImage, requestFor.
  destruct (keyMissing processEnvApiKey); simpl.
  - split; [done|]. by intros [? _].
  - destruct (tryBlock _ _ _) as [e|data]; simpl; split; try done.
    + by intros [_ ?].
    + by intros [_ ?].
Qed.

(** Past the key check every throw is the one of the [catch] clause. *)
Lemma analyze_throws base64Image e :
  keyMissing processEnvApiKey = false ->
  tryBlock generateContent JSON_parse (requestFor base64Image) = throw e ->
  analyzePlantImage processEnvApiKey generateContent JSON_parse base64Image =
    ([GenerateContent (requestFor base64Image);
      ConsoleError (js "Gemini API Error:") e],
     throw (JsError failureMessage)).
Proof.
  intros Hkey Htry. unfold analyzePlantImage. rewrite Hkey.
  fold (requestFor base64Image). by rewrite Htry.
Qed.
End AnalysisLemmas.

(** C1: a response that says [identified: true] without a usable
    [commonName] comes back with [identified: false]; hence a returned
    record with [identified: true] has a [commonName] that is present and
    not empty. *)
Theorem identified_requires_commonName
    (key : option jsstring) (generateContent : request -> completion (option jsstring))
    (JSON_parse : jsstring -> option value) (base64Image : jsstring) :
  (forall text data,
      keyMissing key = false ->
      generateContent (requestFor base64Image) = ret (Some text) -> text <> [] ->
      JSON_parse text = Some data ->
      Get data identified = ret (VBool true) ->
      Get data commonName = ret VUndef \/ Get data commonName = ret (VStr []) ->
      exists r,
        (analyzePlantImage key generateContent JSON_parse base64Image).2 = ret r /\
        Get r identified = ret (VBool false)) /\
  (forall r,
      (analyzePlantImage key generateContent JSON_parse base64Image).2 = ret r ->
      Get r identified = ret (VBool true) ->
      exists name,
        Get r commonName = ret name /\ truthy name = true /\
        name <> VUndef /\ name <> VStr []).
Proof.
  split.
  - intros text data Hkey Hgen Hne Hparse Hid Hname.
    assert (exists r, safetyCheck data = ret r /\ Get r identified = ret (VBool false))
      as (r & Hcheck & Hr).
    { unfold safetyCheck. rewrite Hid. simpl.
      assert (exists name, Get data commonName = ret name /\ truthy name = false)
        as (name & -> & Hfalsy) by (destruct Hname; by eexists).
      simpl. rewrite Hfalsy. simpl.
      destruct data as [| |b|x|s|elems props|props]; try done; simpl;
        eexists; (split; [done|]); simpl; by rewrite lookup_insert_eq. }
    exists r. split; [|done].
    apply analyze_returns. split; [done|].
    apply tryBlock_returns. by exists text, data.
  - intros r [_ Htry]%analyze_returns Hid.
    apply tryBlock_returns in Htry as (text & data & _ & _ & _ & Hcheck).
    apply safetyCheck_returns in Hcheck as (id & name & Hgid & Hgname & Hcase).
    destruct (truthy id && negb (truthy name)) eqn:Hcond.
    + exfalso.
      destruct data as [| |b|x|s|elems props|props]; try done; simpl in Hcase;
        injection Hcase as <-; simpl in Hid; rewrite lookup_insert_eq in Hid; done.
    + subst r. exists name. split; [done|].
      rewrite Hgid in Hid. injection Hid as ->. simpl in Hcond.
      apply negb_false_iff in Hcond.
      split; [done|]. split; intros ->; done.
Qed.

Lemma identified_requires_commonName_witness :
  (exists r,
     (analyzePlantImage (Some (js "k")) (answering (js "{}")) (readingAs unnamed) []).2 = ret r /\
     Get r identified = ret (VBool false)) /\
  (exists name,
     Get neem commonName = ret name /\ truthy name = true /\
     name <> VUndef /\ name <> VStr []).
Proof.
  split.
  - apply (proj1 (identified_requires_commonName (Some (js "k")) (answering (js "{}"))
                    (readingAs unnamed) []) (js "{}") unnamed);
      first [ reflexivity | discriminate | left; reflexivity ].
  - apply (proj2 (identified_requires_commonName (Some (js "k")) (answering (js "{}"))
                    (readingAs neem) []) neem); reflexivity.
Defined.

(** C4: without the credential the function throws the configuration error
    at once; the service is not called. *)
Theorem missing_key_fails_before_any_request
    (key : option jsstring) (generateContent : request -> completion (option jsstring))
    (JSON_parse : jsstring -> option value) (base64Image : jsstring) :
  keyMissing key = true ->
  analyzePlantImage key generateContent JSON_parse base64Image =
    ([], throw (JsError missingKeyMessage)) /\
  requests (analyzePlantImage key generateContent JSON_parse base64Image).1 = [] /\
  strip_prefix (js "API Key is missing") missingKeyMessage =
    Some (js ". Please configure the environment.").
Proof.
  intros Hkey. unfold analyzePlantImage. rewrite Hkey. by repeat split.
Qed.

Lemma missing_key_fails_before_any_request_witness :
  analyzePlantImage None (answering (js "{}")) (readingAs neem)
      (js "data:image/png;base64,AAAA") =
    ([], throw (JsError missingKeyMessage)) /\
  requests (analyzePlantImage None (answering (js "{}")) (readingAs neem)
              (js "data:image/png;base64,AAAA")).1 = [] /\
  strip_prefix (js "API Key is missing") missingKeyMessage =
    Some (js ". Please configure the environment.").
Proof.
  apply (missing_key_fails_before_any_request None (answering (js "{}"))
           (readingAs neem) (js "data:image/png;base64,AAAA")).
  reflexivity.
Defined.

(** C5: once the call is attempted, a rejection by the service, a missing or
    empty response text and a text that does not parse all end in the one
    error of the [catch] clause; nothing else is ever thrown there, and what
    is returned is the checked record of a response that parsed. *)
Theorem failures_collapse_to_one_error
    (key : option jsstring) (generateContent : request -> completion (option jsstring))
    (JSON_parse : jsstring -> option value) (base64Image : jsstring) :
  keyMissing key = false ->
  (serviceFailed generateContent JSON_parse (requestFor base64Image) ->
   (analyzePlantImage key generateContent JSON_parse base64Image).2 =
     throw (JsError failureMessage)) /\
  (forall e,
     (analyzePlantImage key generateContent JSON_parse base64Image).2 = throw e ->
     e = JsError failureMessage) /\
  (forall r,
     (analyzePlantImage key generateContent JSON_parse base64Image).2 = ret r ->
     exists text data,
       generateContent (requestFor base64Image) = ret (Some text) /\
       JSON_parse text = Some data /\ safetyCheck data = ret r).
Proof.
  intros Hkey. repeat split.
  - intros Hfail.
    destruct (tryBlock generateContent JSON_parse (requestFor base64Image))
      as [e|r] eqn:Htry.
    + by rewrite (analyze_throws _ _ _ _ e).
    + exfalso. apply tryBlock_returns in Htry as (text & data & Hgen & Hne & Hparse & _).
      destruct Hfail as [[reason H]|[H|[H|(text' & H & Hnone)]]];
        rewrite Hgen in H; unfold ret, throw in H; simplify_eq.
  - intros e. unfold analyzePlantImage. rewrite Hkey.
    destruct (tryBlock _ _ _); simpl; unfold throw, ret; congruence.
  - intros r [_ Htry]%analyze_returns.
    apply tryBlock_returns in Htry as (text & data & ? & _ & ? & ?).
    by exists text, data.
Qed.

Lemma failures_collapse_to_one_error_witness :
  (analyzePlantImage (Some (js "k")) unreachable (readingAs neem) (js "AAAA")).2 =
    throw (JsError failureMessage).
Proof.
  apply (failures_collapse_to_one_error (Some (js "k")) unreachable (readingAs neem)
           (js "AAAA") eq_refl).
  left. by eexists.
Defined.

(** On a response of the declared shape (a boolean flag, a name that is a
    string or absent) the condition the code tests is: the flag is [true] and
    the name is absent or empty. *)
Lemma correction_condition_typed (b : bool) (name : value) :
  name = VUndef \/ (exists s, name = VStr s) ->
  truthy (VBool b) && negb (truthy name) = true <->
  b = true /\ (name = VUndef \/ name = VStr []).
Proof.
  intros [->|[s ->]]; simpl.
  - rewrite andb_true_r. split.
    + intros ->. split; [done|]. by left.
    + by intros [-> _].
  - destruct b, s as [|c s]; simpl; split; try done;
      try (by intros [H _]).
    + intros _. split; [done|]. by right.
    + intros [_ [H|H]]; discriminate H.
Qed.

(** C7 as written fails on a name that is present and not the empty string
    but falsy: for [{"identified": true, "commonName": 0}] the condition
    "identified true with absent or empty commonName" does not hold, and the
    flag is reset all the same. *)
Lemma falsy_name_counterexample :
  Get zeroNamed identified = ret (VBool true) /\
  Get zeroNamed commonName = ret (VNum (S754_zero false)) /\
  Get zeroNamed commonName <> ret VUndef /\
  Get zeroNamed commonName <> ret (VStr []) /\
  exists r,
    (analyzePlantImage (Some (js "k")) (answering (js "{}")) (readingAs zeroNamed)
       (js "AAAA")).2 = ret r /\
    Get r identified = ret (VBool false).
Proof.
  repeat split; try discriminate.
  eexists. split; [vm_compute; reflexivity|reflexivity].
Qed.

(** C7, as the code has it: the safety check is all that happens to a parsed
    response: the returned record agrees with it on every property but
    [identified], and is the parsed record itself unless the flag is truthy
    and the name falsy (absent, empty, [null], 0, [NaN] or [false]), in
    which case only the flag is reset. *)
Theorem correction_is_the_only_change
    (key : option jsstring) (generateContent : request -> completion (option jsstring))
    (JSON_parse : jsstring -> option value) (base64Image text : jsstring)
    (data r : value) :
  generateContent (requestFor base64Image) = ret (Some text) ->
  JSON_parse text = Some data ->
  (analyzePlantImage key generateContent JSON_parse base64Image).2 = ret r ->
  sameButIdentified data r /\
  (forall k, k <> identified -> Get r k = Get data k) /\
  exists id name,
    Get data identified = ret id /\ Get data commonName = ret name /\
    if truthy id && negb (truthy name)
    then Get r identified = ret (VBool false)
    else r = data /\ Get r identified = ret id.
Proof.
  intros Hgen Hparse [_ Htry]%analyze_returns.
  apply tryBlock_returns in Htry as (text' & data' & Hgen' & _ & Hparse' & Hcheck).
  rewrite Hgen in Hgen'. injection Hgen' as <-.
  rewrite Hparse in Hparse'. injection Hparse' as <-.
  apply safetyCheck_returns in Hcheck as (id & name & Hid & Hname & Hcase).
  destruct (truthy id && negb (truthy name)) eqn:Hcond.
  - destruct data as [| |b|x|s|elems props|props]; try done; simpl in Hcase;
      injection Hcase as <-; simpl.
    + split; [split; [done|]; intros k Hk; by rewrite lookup_insert_ne|].
      split; [intros k Hk; by rewrite lookup_insert_ne|].
      exists id, name. rewrite Hcond. by rewrite lookup_insert_eq.
    + split; [intros k Hk; by rewrite lookup_insert_ne|].
      split; [intros k Hk; by rewrite lookup_insert_ne|].
      exists id, name. rewrite Hcond. by rewrite lookup_insert_eq.
  - subst r. split; [by destruct data|]. split; [done|].
    exists id, name. by rewrite Hcond.
Qed.

Lemma correction_is_the_only_change_witness :
  sameButIdentified unnamed (VObj {[ identified := VBool false ]}) /\
  (forall k, k <> identified ->
     Get (VObj {[ identified := VBool false ]}) k = Get unnamed k) /\
  exists id name,
    Get unnamed identified = ret id /\ Get unnamed commonName = ret name /\
    if truthy id && negb (truthy name)
    then Get (VObj {[ identified := VBool false ]}) identified = ret (VBool false)
    else VObj {[ identified := VBool false ]} = unnamed /\
         Get (VObj {[ identified := VBool false ]}) identified = ret id.
Proof.
  apply (correction_is_the_only_change (Some (js "k")) (answering (js "{}"))
           (readingAs unnamed) (js "AAAA") (js "{}") unnamed
           (VObj {[ identified := VBool false ]})).
  - reflexivity.
  - reflexivity.
  - vm_compute. reflexivity.
Defined.

(** ** The result view *)

(** C6: a record whose [identified] is [false] gets the card headed
    "Identification Uncertain", whatever else it holds, and that card is not
    the detail view. *)
Theorem not_identified_renders_uncertain
    (detail : value -> completion view) (data : value) :
  Get data identified = ret (VBool false) ->
  PlantDetails detail data = ret uncertain /\
  (forall shown, uncertain <> DetailView shown) /\
  exists paragraph, uncertain = UncertainView (js "Identification Uncertain") paragraph.
Proof.
  intros Hid. unfold PlantDetails. rewrite Hid. simpl.
  repeat split; [done|]. by eexists.
Qed.

Lemma not_identified_renders_uncertain_witness :
  PlantDetails breaks doubtful = ret uncertain /\
  (forall shown, uncertain <> DetailView shown) /\
  exists paragraph, uncertain = UncertainView (js "Identification Uncertain") paragraph.
Proof. apply (not_identified_renders_uncertain breaks doubtful). reflexivity. Defined.

(** ** Intake of a file *)

(** C3 as written fails when the read does not complete: the file passes
    both checks and the callback never runs. *)
Lemma intake_failed_read_counterexample :
  type smallPng ∈ sampleTypes /\
  size smallPng <= sampleLimit * 1024 * 1024 /\
  selections (processFile sampleTypes sampleLimit smallPng ReadFailed) = [].
Proof.
  split; [by apply (bool_decide_unpack (_ ∈ _))|]. split; [|reflexivity].
  vm_compute. discriminate.
Qed.

(** C3, as the code has it: a file of an allowed type within the limit is
    handed to the reader without any message, and the callback runs once,
    with the text read, when the read ends in a non-empty string, and not at
    all when it fails; a file of another type or over the limit gets one
    message, no read and no callback. *)
Theorem intake_validates_then_reads
    (SUPPORTED_IMAGE_TYPES : list jsstring) (MAX_IMAGE_SIZE_MB : N)
    (file rejected : File) (outcome outcome' : reader_outcome) (text : jsstring) :
  type file ∈ SUPPORTED_IMAGE_TYPES ->
  size file <= MAX_IMAGE_SIZE_MB * 1024 * 1024 ->
  text <> [] ->
  type rejected ∉ SUPPORTED_IMAGE_TYPES \/
    MAX_IMAGE_SIZE_MB * 1024 * 1024 < size rejected ->
  (processFile SUPPORTED_IMAGE_TYPES MAX_IMAGE_SIZE_MB file outcome =
     ReadAsDataURL file :: onload outcome /\
   alerts (processFile SUPPORTED_IMAGE_TYPES MAX_IMAGE_SIZE_MB file outcome) = [] /\
   selections (processFile SUPPORTED_IMAGE_TYPES MAX_IMAGE_SIZE_MB file
                 (Load (RString text))) = [text] /\
   selections (processFile SUPPORTED_IMAGE_TYPES MAX_IMAGE_SIZE_MB file ReadFailed) = [] /\
   (length (selections
      (processFile SUPPORTED_IMAGE_TYPES MAX_IMAGE_SIZE_MB file outcome)) <= 1)%nat) /\
  (selections (processFile SUPPORTED_IMAGE_TYPES MAX_IMAGE_SIZE_MB rejected outcome') = [] /\
   exists message,
     processFile SUPPORTED_IMAGE_TYPES MAX_IMAGE_SIZE_MB rejected outcome' =
       [Alert message] /\
     (message = invalidTypeMessage \/ message = tooLargeMessage MAX_IMAGE_SIZE_MB)).
Proof.
  intros Htype Hsize Htext Hrej. split.
  - assert (forall o, processFile SUPPORTED_IMAGE_TYPES MAX_IMAGE_SIZE_MB file o =
                        ReadAsDataURL file :: onload o) as Hok.
    { intros o. unfold processFile. rewrite bool_decide_true by done. simpl.
      destruct (N.ltb_spec (MAX_IMAGE_SIZE_MB * 1024 * 1024) (size file)); [lia|done]. }
    rewrite !Hok. repeat split.
    + by destruct outcome as [[]|]; simpl; try destruct (nonempty _).
    + simpl. by destruct text.
    + destruct outcome as [[| s |]|]; simpl; try lia.
      destruct (nonempty s); simpl; lia.
  - unfold processFile.
    destruct (bool_decide (type rejected ∈ SUPPORTED_IMAGE_TYPES)) eqn:Hdec; simpl.
    + apply bool_decide_eq_true in Hdec. destruct Hrej as [Hrej|Hrej]; [done|].
      apply N.ltb_lt in Hrej. rewrite Hrej. split; [done|]. eexists. split; [done|]. by right.
    + split; [done|]. eexists. split; [done|]. by left.
Qed.

Lemma intake_validates_then_reads_witness :
  selections (processFile sampleTypes sampleLimit smallPng
                (Load (RString (js "data:image/png;base64,AAAA")))) =
    [js "data:image/png;base64,AAAA"] /\
  selections (processFile sampleTypes sampleLimit textFile ReadFailed) = [].
Proof.
  destruct (intake_validates_then_reads sampleTypes sampleLimit smallPng textFile
              ReadFailed ReadFailed (js "data:image/png;base64,AAAA"))
    as [(_ & _ & Hread & _) [Hnone _]].
  - by apply (bool_decide_unpack (_ ∈ _)).
  - vm_compute. discriminate.
  - discriminate.
  - left. by apply (bool_decide_unpack (_ ∉ _)).
  - split; [exact Hread | exact Hnone].
Defined.

(** ** The camera stream *)

Lemma stopTracks_removes (tracks : mediaStream) (w : world) :
  stopTracks tracks w = (w.1, w.2 ∖ list_to_set tracks).
Proof.
  unfold stopTracks. revert w.
  induction tracks as [|track tracks IH]; intros [c live]; simpl.
  - f_equal. apply set_eq. set_solver.
  - rewrite IH. simpl. f_equal. apply set_eq. set_solver.
Qed.

Lemma stopCamera_some (tracks : mediaStream) (w : world) :
  stopCamera (Some tracks) w =
    ({| stream := None; isCameraOpen := false; cameraError := None;
        isFlashing := isFlashing w.1 |},
     w.2 ∖ list_to_set tracks).
Proof. unfold stopCamera. by rewrite stopTracks_removes. Qed.

Lemma stopCamera_releases (tracks : mediaStream) (w : world) :
  released tracks (stopCamera (Some tracks) w).
Proof.
  rewrite stopCamera_some. split; [done|]. simpl.
  intros track Hin. set_solver.
Qed.

(** C9 as written fails for a capture that gets no drawing context: the
    camera stays open and its track keeps running. *)
Lemma capture_without_context_counterexample :
  stream (capturePhoto noContext (stream liveCamera) (liveCamera, {[7%nat]})).1.1
    = Some [7%nat] /\
  7%nat ∈ (capturePhoto noContext (stream liveCamera) (liveCamera, {[7%nat]})).1.2 /\
  ~ released [7%nat]
      (capturePhoto noContext (stream liveCamera) (liveCamera, {[7%nat]})).1.
Proof.
  split; [reflexivity|]. split.
  - simpl. set_solver.
  - intros [Hstream _]. discriminate Hstream.
Qed.

(** C9, as the code has it: from the live camera, cancelling and a capture
    that commits a frame release the stream (every track stopped, the handle
    cleared), and the frame is handed on once; releasing again changes
    nothing; a capture for which the canvas gives no drawing context
    releases nothing: the camera stays open with its stream. *)
Theorem camera_released_on_cancel_and_capture
    (tracks : mediaStream) (c : camera) (live : gset nat)
    (env failed : capture_env) :
  stream c = Some tracks -> isCameraOpen c = true -> cameraError c = None ->
  0 < videoWidth env -> context2d env = true ->
  0 < videoWidth failed -> context2d failed = false ->
  released tracks (stopCamera (stream c) (c, live)) /\
  (released tracks (capturePhoto env (stream c) (c, live)).1 /\
   (capturePhoto env (stream c) (c, live)).2 = [OnImageSelect (dataUrl env)]) /\
  (stopCamera (stream c) (stopCamera (stream c) (c, live)) =
     stopCamera (stream c) (c, live) /\
   stopCamera None (stopCamera (stream c) (c, live)) =
     stopCamera (stream c) (c, live)) /\
  (stream (capturePhoto failed (stream c) (c, live)).1.1 = Some tracks /\
   isCameraOpen (capturePhoto failed (stream c) (c, live)).1.1 = true /\
   (capturePhoto failed (stream c) (c, live)).1.2 = live /\
   (capturePhoto failed (stream c) (c, live)).2 = []).
Proof.
  intros Hstream Hopen Herror Hwidth Hctx Hwidth' Hctx'. rewrite Hstream.
  apply N.ltb_lt in Hwidth, Hwidth'.
  split; [apply stopCamera_releases|]. split; [|split].
  - unfold capturePhoto, captureClick, captureTimer, videoRef. simpl.
    rewrite Hopen, Herror, Hwidth. simpl. rewrite Hopen, Herror, Hctx. simpl.
    split; [|done]. rewrite stopCamera_some. split; [done|]. simpl.
    intros track Hin. set_solver.
  - rewrite !stopCamera_some. simpl. split; [|done].
    f_equal. apply set_eq. set_solver.
  - unfold capturePhoto, captureClick, captureTimer, videoRef. simpl.
    rewrite Hopen, Herror, Hwidth'. simpl. rewrite Hopen, Herror, Hctx'. by simpl.
Qed.

Lemma camera_released_on_cancel_and_capture_witness :
  released [7%nat] (stopCamera (stream liveCamera) (liveCamera, {[7%nat]})) /\
  released [7%nat] (capturePhoto framing (stream liveCamera) (liveCamera, {[7%nat]})).1.
Proof.
  destruct (camera_released_on_cancel_and_capture [7%nat] liveCamera {[7%nat]}
              framing noContext)
    as (Hcancel & [Hcapture _] & _); try reflexivity.
  split; [exact Hcancel | exact Hcapture].
Defined.

(** ** The presentation state during a request *)

(** The trace of the analysis: nothing, the call, or the call and the log
    line of the [catch] clause. *)
Lemma analysis_trace key generateContent JSON_parse base64Image :
  let trace := (analyzePlantImage key generateContent JSON_parse base64Image).1 in
  trace = [] \/
  trace = [GenerateContent (requestFor base64Image)] \/
  exists cause,
    trace = [GenerateContent (requestFor base64Image);
             ConsoleError (js "Gemini API Error:") cause].
Proof.
  unfold analyzePlantImage. fold (requestFor base64Image).
  destruct (keyMissing key); simpl; [by left|].
  destruct (tryBlock _ _ _); simpl; [|by right; left].
  right; right. by eexists.
Qed.

(** Steps that write no state leave it as it is. *)
Lemma run_without_updates (between : list step) (st : app) :
  Forall (fun s => forall a, s <> Update a) between -> run between st = st.
Proof.
  induction 1 as [|s between Hs _ IH]; [done|].
  simpl. destruct s as [a| |]; [by destruct (Hs a)|exact IH|exact IH].
Qed.

(** C8 as written fails when runs of the handler overlap: the first run is
    suspended at its [await], a reset brings the uploader back, a second
    image is selected, and the record of the first request is stored while
    the second request is still out. *)
Lemma overlapping_runs_counterexample :
  let firstOut :=
    run (beforeAwait (js "AAAA") ++ [Effect (GenerateContent (requestFor (js "AAAA")))])
      afterScan in
  let secondOut :=
    run (beforeAwait (js "BBBB") ++ [Effect (GenerateContent (requestFor (js "BBBB")))])
      (resetApp firstOut).1 in
  let firstSettled := run (afterAwait (ret neem)) secondOut in
  result secondOut = None /\
  selectedImage firstSettled = Some (js "BBBB") /\
  result firstSettled = Some neem /\
  isAnalyzing firstSettled = false.
Proof. by repeat split. Qed.

(** C8, as the code has it: [handleImageSelect] empties the result and the
    error before it sets [isAnalyzing]; at the moment its request goes out
    the state holds the new image, no result, no error and [isAnalyzing],
    whatever the state was before; and it stays so for as long as no other
    handler writes the state. *)
Theorem no_stale_state_while_analyzing
    (key : option jsstring) (generateContent : request -> completion (option jsstring))
    (JSON_parse : jsstring -> option value) (base64Image : jsstring) (st : app)
    (between : list step) :
  (forall before after,
     handleImageSelect key generateContent JSON_parse base64Image =
       before ++ Update (SetIsAnalyzing true) :: after ->
     result (run before st) = None /\ error (run before st) = None) /\
  (forall before req after,
     handleImageSelect key generateContent JSON_parse base64Image =
       before ++ Effect (GenerateContent req) :: after ->
     run before st =
       {| selectedImage := Some base64Image; isAnalyzing := true;
          result := None; error := None |}) /\
  (Forall (fun s => forall a, s <> Update a) between ->
   run between (run (beforeAwait base64Image) st) =
     {| selectedImage := Some base64Image; isAnalyzing := true;
        result := None; error := None |}).
Proof.
  split; [|split].
  - unfold handleImageSelect.
    destruct (analysis_trace key generateContent JSON_parse base64Image)
      as [Htrace|[Htrace|[cause Htrace]]];
      rewrite Htrace;
      destruct (analyzePlantImage key generateContent JSON_parse base64Image).2
        as [err|data]; simpl;
      intros before; intros;
      repeat (destruct before as [|? before]; simplify_eq/=; try done).
  - unfold handleImageSelect.
    destruct (analysis_trace key generateContent JSON_parse base64Image)
      as [Htrace|[Htrace|[cause Htrace]]];
      rewrite Htrace;
      destruct (analyzePlantImage key generateContent JSON_parse base64Image).2
        as [err|data]; simpl;
      intros before; intros;
      repeat (destruct before as [|? before]; simplify_eq/=; try done).
  - intros Hquiet. by rewrite run_without_updates.
Qed.

Lemma no_stale_state_while_analyzing_witness :
  (result (run (take 3 (beforeAwait (js "AAAA"))) afterScan) = None /\
   error (run (take 3 (beforeAwait (js "AAAA"))) afterScan) = None) /\
  run (beforeAwait (js "AAAA")) afterScan =
    {| selectedImage := Some (js "AAAA"); isAnalyzing := true;
       result := None; error := None |} /\
  run [ConsoleLog (js "Analysis failed:") TypeError]
      (run (beforeAwait (js "AAAA")) afterScan) =
    {| selectedImage := Some (js "AAAA"); isAnalyzing := true;
       result := None; error := None |}.
Proof.
  destruct (no_stale_state_while_analyzing (Some (js "k")) (answering (js "{}"))
              (readingAs neem) (js "AAAA") afterScan
              [ConsoleLog (js "Analysis failed:") TypeError])
    as (Hclear & Hflight & Hquiet).
  split; [|split].
  - apply (Hclear (take 3 (beforeAwait (js "AAAA")))
             [Effect (GenerateContent (requestFor (js "AAAA")));
              Update (SetResult (Some neem)); Update (SetIsAnalyzing false)]).
    reflexivity.
  - apply (Hflight (beforeAwait (js "AAAA")) (requestFor (js "AAAA"))
             [Update (SetResult (Some neem)); Update (SetIsAnalyzing false)]).
    reflexivity.
  - apply Hquiet. repeat constructor. intros a H. discriminate H.
Defined.

(** * Further properties of the code *)

(** ** What the preprocessing forwards, for any input *)

Lemma split_pieces_without sep (s : jsstring) :
  Forall (fun piece => sep ∉ piece) (split sep s).
Proof.
  induction s as [|c s IH]; simpl.
  - repeat constructor. by intros ?%elem_of_nil.
  - destruct (N.eqb_spec c sep) as [->|Hne].
    + constructor; [|done]. by intros ?%elem_of_nil.
    + destruct (split sep s) as [|piece pieces].
      * repeat constructor. intros [?|?%elem_of_nil]%elem_of_cons; [congruence|done].
      * apply Forall_cons in IH as [Hpiece Hpieces]. constructor; [|done].
        intros [?|?]%elem_of_cons; [congruence|done].
Qed.

(** The image data of the request is the whole input or a piece of it
    without any comma, and it is empty only for the empty input. *)
Theorem forwarded_data_is_input_or_comma_free (base64Image : jsstring) :
  (cleanBase64 base64Image = base64Image \/ comma ∉ cleanBase64 base64Image) /\
  (cleanBase64 base64Image = [] <-> base64Image = []).
Proof.
  unfold cleanBase64.
  pose proof (split_pieces_without comma base64Image) as Hpieces.
  destruct (split comma base64Image !! 1%nat) as [piece|] eqn:E; simpl.
  - destruct piece as [|c piece]; simpl.
    + split; [by left|done].
    + split.
      * right. eapply Forall_lookup_1 in Hpieces; [exact Hpieces|exact E].
      * split; [done|]. intros ->. by simpl in E.
  - split; [by left|done].
Qed.

Section StarSplit.
Context {A : Type}.

(** What [star] returns was accepted after a run of characters of the class. *)
Lemma star_split (p : N -> bool) (s : jsstring) (k : jsstring -> option A) r :
  star p s k = Some r ->
  exists a b, s = a ++ b /\ forallb p a = true /\ k b = Some r.
Proof.
  induction s as [|c s IH]; simpl.
  - intros H. by exists [], [].
  - destruct (p c) eqn:Hc.
    + destruct (star p s k) as [r'|] eqn:E.
      * intros [= <-]. destruct (IH eq_refl) as (a & b & -> & Ha & Hk).
        exists (c :: a), b. simpl. by rewrite Hc, Ha.
      * intros H. by exists [], (c :: s).
    + intros H. by exists [], (c :: s).
Qed.
End StarSplit.

Lemma strip_prefix_Some (l s s' : jsstring) :
  strip_prefix l s = Some s' -> s = l ++ s'.
Proof.
  revert s; induction l as [|a l IH]; intros s; simpl.
  - destruct s; by intros [= <-].
  - destruct s as [|c s]; [done|].
    destruct (N.eqb_spec a c) as [->|_]; [|done].
    intros H%IH. by rewrite H.
Qed.

Lemma exec_found (r : regex) (s : jsstring) m :
  exec r s = Some m -> exists s0, s0 `suffix_of` s /\ match_here r s0 = Some m.
Proof.
  induction s as [|c s IH]; cbn [exec].
  - destruct (match_here r []) eqn:E; [|done]. intros [= <-]. by exists [].
  - destruct (match_here r (c :: s)) eqn:E.
    + intros [= <-]. by exists (c :: s).
    + intros (s0 & Hs0 & H)%IH. exists s0. split; [by apply suffix_cons_r|done].
Qed.

(** A match of the pattern captures a type and a subtype over the two
    character classes. *)
Lemma match_here_captures (s : jsstring) m :
  match_here mimeRegex s = Some m ->
  exists whole t st,
    m = [whole; t ++ js "/" ++ st] /\
    t <> [] /\ forallb alnum t = true /\
    st <> [] /\ forallb subtype_char st = true.
Proof.
  unfold match_here, mimeRegex. cbn [rmatch].
  destruct (strip_prefix (js "data:") s) as [s1|] eqn:E1; [|done].
  destruct s1 as [|c s1]; [done|]. destruct (alnum c) eqn:Hc; [|done].
  intros (a & b & -> & Ha & Hk)%star_split.
  destruct (strip_prefix (js "/") b) as [s3|] eqn:E3; [|done].
  apply strip_prefix_Some in E3 as ->.
  destruct s3 as [|d s3]; [done|]. destruct (subtype_char d) eqn:Hd; [|done].
  apply star_split in Hk as (a' & b' & -> & Ha' & Hk).
  pose (P := fun m : list jsstring =>
               exists whole, m = [whole; (c :: a) ++ js "/" ++ d :: a']).
  assert (P m) as [whole ->].
  { revert Hk. apply (star_returns P). intros s5 r5.
    destruct (strip_prefix [comma] s5) as [s6|]; [|done].
    apply (star_returns P). intros s7 r7 [= <-]. eexists. f_equal. f_equal.
    etransitivity; [|apply (taken_before ((c :: a) ++ js "/" ++ d :: a') b')].
    by rewrite <- !app_assoc. }
  exists whole, (c :: a), (d :: a'). simpl. rewrite Hc, Hd. by repeat split.
Qed.

(** The media type of the request always reads [<type>/<subtype>] with a
    type in [[a-zA-Z0-9]+] and a subtype in [[a-zA-Z0-9-.+]+], whatever the
    input is. *)
Theorem media_type_is_well_formed (base64Image : jsstring) :
  exists t st,
    mimeType base64Image = t ++ js "/" ++ st /\
    t <> [] /\ forallb alnum t = true /\
    st <> [] /\ forallb subtype_char st = true.
Proof.
  unfold mimeType.
  destruct (exec mimeRegex base64Image) as [m|] eqn:E; simpl.
  - apply exec_found in E as (s0 & _ & H).
    apply match_here_captures in H as (whole & t & st & -> & Ht & Halnum & Hst & Hsub).
    exists t, st. simpl. destruct t; [done|]. by repeat split.
  - exists (js "image"), (js "jpeg"). by repeat split.
Qed.

(** ** What the analysis call does, for any service *)

(** One call of the function makes one request when the credential is there
    and none when it is not: a failure is never retried. *)
Theorem one_request_and_no_retry
    (key : option jsstring) (generateContent : request -> completion (option jsstring))
    (JSON_parse : jsstring -> option value) (base64Image : jsstring) :
  requests (analyzePlantImage key generateContent JSON_parse base64Image).1 =
    if keyMissing key then [] else [requestFor base64Image].
Proof.
  unfold analyzePlantImage. fold (requestFor base64Image).
  destruct (keyMissing key); [done|].
  by destruct (tryBlock _ _ _).
Qed.

(** A record that passed the safety check passes it again unchanged. *)
Theorem safetyCheck_is_idempotent (data r : value) :
  safetyCheck data = ret r -> safetyCheck r = ret r.
Proof.
  intros (id & name & Hid & Hname & Hcase)%safetyCheck_returns.
  destruct (truthy id && negb (truthy name)) eqn:Hcond.
  - destruct data as [| |b|x|s|elems props|props]; try done; simpl in Hcase;
      injection Hcase as <-; unfold safetyCheck; simpl;
      by rewrite lookup_insert_eq.
  - subst r. unfold safetyCheck. rewrite Hid. simpl.
    destruct (truthy id); [|done]. rewrite Hname. simpl.
    simpl in Hcond. by rewrite Hcond.
Qed.

Lemma safetyCheck_is_idempotent_witness :
  safetyCheck (VObj {[ identified := VBool false ]}) =
    ret (VObj {[ identified := VBool false ]}).
Proof.
  apply (safetyCheck_is_idempotent unnamed). vm_compute. reflexivity.
Defined.

(** What is returned is never [null] or [undefined], so the read of
    [data.identified] at the top of [PlantDetails] cannot throw on it: the
    component gives the uncertain card or goes on to build the detail view,
    the only place left where it can throw. *)
Theorem returned_record_passes_the_flag_test
    (detail : value -> completion view)
    (key : option jsstring) (generateContent : request -> completion (option jsstring))
    (JSON_parse : jsstring -> option value) (base64Image : jsstring) (r : value) :
  (analyzePlantImage key generateContent JSON_parse base64Image).2 = ret r ->
  r <> VNull /\ r <> VUndef /\
  exists id,
    Get r identified = ret id /\
    PlantDetails detail r = if truthy id then detail r else ret uncertain.
Proof.
  intros [_ Htry]%analyze_returns.
  apply tryBlock_returns in Htry as (text & data & _ & _ & _ & Hcheck).
  apply safetyCheck_is_idempotent in Hcheck.
  apply safetyCheck_returns in Hcheck as (id & _ & Hid & _).
  split; [by intros ->|]. split; [by intros ->|].
  exists id. split; [done|].
  unfold PlantDetails. rewrite Hid. simpl. by destruct (truthy id).
Qed.

Lemma returned_record_passes_the_flag_test_witness :
  neem <> VNull /\ neem <> VUndef /\
  exists id,
    Get neem identified = ret id /\
    PlantDetails breaks neem = if truthy id then breaks neem else ret uncertain.
Proof.
  apply (returned_record_passes_the_flag_test breaks (Some (js "k"))
           (answering (js "{}")) (readingAs neem) (js "AAAA")).
  reflexivity.
Defined.

(** A response that parses to [null] ends in the generic error, like any
    other failure. *)
Theorem null_response_is_a_failure
    (key : option jsstring) (generateContent : request -> completion (option jsstring))
    (JSON_parse : jsstring -> option value) (base64Image text : jsstring) :
  keyMissing key = false ->
  generateContent (requestFor base64Image) = ret (Some text) ->
  JSON_parse text = Some VNull ->
  analyzePlantImage key generateContent JSON_parse base64Image =
    ([GenerateContent (requestFor base64Image);
      ConsoleError (js "Gemini API Error:")
        (if nonempty text then TypeError else JsError (js "No response from AI"))],
     throw (JsError failureMessage)).
Proof.
  intros Hkey Hgen Hparse. apply analyze_throws; [done|].
  unfold tryBlock. rewrite Hgen. simpl.
  destruct (nonempty text); simpl; [|done]. by rewrite Hparse.
Qed.

Lemma null_response_is_a_failure_witness :
  (analyzePlantImage (Some (js "k")) (answering (js "null")) (readingAs VNull)
     (js "AAAA")).2 = throw (JsError failureMessage).
Proof.
  rewrite (null_response_is_a_failure (Some (js "k")) (answering (js "null"))
             (readingAs VNull) (js "AAAA") (js "null")); reflexivity.
Defined.

(** ** The state and the page around a request *)

Lemma run_app (steps steps' : list step) (st : app) :
  run (steps ++ steps') st = run steps' (run steps st).
Proof. unfold run. by rewrite foldl_app. Qed.

(** The service module changes no state of the application. *)
Lemma run_effects (trace : list event) (st : app) :
  run (Effect <$> trace) st = st.
Proof. induction trace as [|e trace IH]; [done|]. simpl. exact IH. Qed.

(** The function throws one of its two errors, each with a message. *)
Lemma analyze_throws_one_of_two key generateContent JSON_parse base64Image e :
  (analyzePlantImage key generateContent JSON_parse base64Image).2 = throw e ->
  e = JsError missingKeyMessage \/ e = JsError failureMessage.
Proof.
  unfold analyzePlantImage. destruct (keyMissing key); simpl.
  - intros [= <-]. by left.
  - destruct (tryBlock _ _ _); simpl; [|done]. intros [= <-]. by right.
Qed.

(** The handler is suspended at its [await], and other handlers can write
    the state before it goes on. Whatever they did, once the continuation
    has run [isAnalyzing] is false and the state holds the returned record,
    or one of the two messages [analyzePlantImage] throws (the handler's own
    fallback text is never used). When nothing wrote the state in between,
    the state also holds the selected image, and a record comes with no
    error, an error with no record. *)
Theorem handler_ends_with_result_or_error
    (key : option jsstring) (generateContent : request -> completion (option jsstring))
    (JSON_parse : jsstring -> option value) (base64Image : jsstring) (st : app)
    (between : list step) :
  let analysis := analyzePlantImage key generateContent JSON_parse base64Image in
  let final :=
    run (afterAwait analysis.2)
      (run between (run (beforeAwait base64Image ++ (Effect <$> analysis.1)) st)) in
  isAnalyzing final = false /\
  match analysis.2 with
  | inr r => result final = Some r
  | inl _ => error final = Some missingKeyMessage \/ error final = Some failureMessage
  end /\
  (Forall (fun s => forall a, s <> Update a) between ->
   final = run (handleImageSelect key generateContent JSON_parse base64Image) st /\
   selectedImage final = Some base64Image /\
   match analysis.2 with
   | inr _ => error final = None
   | inl _ => result final = None
   end).
Proof.
  cbv zeta.
  destruct (analyzePlantImage key generateContent JSON_parse base64Image).2
    as [e|r] eqn:Hout.
  - destruct (analyze_throws_one_of_two _ _ _ _ _ Hout) as [-> | ->];
      (split; [done|]); (split; [simpl; auto|]); intros Hquiet;
      rewrite (run_without_updates between) by done;
      unfold handleImageSelect; rewrite Hout, !run_app, run_effects; by repeat split.
  - split; [done|]. split; [done|]. intros Hquiet.
    rewrite (run_without_updates between) by done.
    unfold handleImageSelect. rewrite Hout, !run_app, run_effects. by repeat split.
Qed.

Lemma handler_ends_with_result_or_error_witness :
  selectedImage
    (run (afterAwait (analyzePlantImage (Some (js "k")) unreachable (readingAs neem)
                        (js "AAAA")).2)
       (run [] (run (beforeAwait (js "AAAA") ++
                     (Effect <$> (analyzePlantImage (Some (js "k")) unreachable
                                    (readingAs neem) (js "AAAA")).1)) afterScan))) =
    Some (js "AAAA").
Proof.
  destruct (handler_ends_with_result_or_error (Some (js "k")) unreachable
              (readingAs neem) (js "AAAA") afterScan []) as (_ & _ & Hquiet).
  destruct (Hquiet ltac:(constructor)) as (_ & Himage & _). exact Himage.
Defined.

(** At the moment the request goes out, and for as long as no other handler
    writes the state during the [await], the page shows the image under the
    scanning overlay and the skeleton: no record, no error panel and no
    button for a new scan, whatever an earlier scan left in the state. *)
Theorem page_while_analyzing
    (detail : value -> completion view)
    (key : option jsstring) (generateContent : request -> completion (option jsstring))
    (JSON_parse : jsstring -> option value) (base64Image : jsstring) (st : app)
    (loadingStep : N) (between : list step) :
  base64Image <> [] -> loadingStep < 4 ->
  Forall (fun s => forall a, s <> Update a) between ->
  exists phrase,
    loadingStages !! N.to_nat loadingStep = Some phrase /\
    App detail false loadingStep
      (run between
         (run (beforeAwait base64Image ++
               (Effect <$> (analyzePlantImage key generateContent JSON_parse
                              base64Image).1))
            st)) =
      ret (Scan base64Image (Some phrase) None NoDetails true false).
Proof.
  intros Himg Hstep Hquiet.
  rewrite (run_without_updates between) by done. rewrite run_app, run_effects.
  assert (exists phrase, loadingStages !! N.to_nat loadingStep = Some phrase)
    as [phrase Hphrase].
  { apply lookup_lt_is_Some. simpl. lia. }
  exists phrase. split; [done|].
  unfold App. simpl. destruct base64Image as [|c img]; [done|]. simpl.
  by rewrite Hphrase.
Qed.

Lemma page_while_analyzing_witness :
  exists phrase,
    loadingStages !! N.to_nat 2 = Some phrase /\
    App breaks false 2
      (run []
         (run (beforeAwait (js "AAAA") ++
               (Effect <$> (analyzePlantImage (Some (js "k")) (answering (js "{}"))
                              (readingAs neem) (js "AAAA")).1))
            afterScan)) =
      ret (Scan (js "AAAA") (Some phrase) None NoDetails true false).
Proof.
  apply (page_while_analyzing breaks (Some (js "k")) (answering (js "{}"))
           (readingAs neem) (js "AAAA") afterScan 2 []);
    [discriminate | reflexivity | constructor].
Defined.




(** A reset brings the uploader back and empties record and error, also
    while a request is out; the response that then arrives is stored but the
    page stays on the uploader. *)
Theorem reset_returns_to_the_uploader
    (detail : value -> completion view)
    (st : app) (base64Image : jsstring) (outcome : completion value)
    (loadingStep : N) :
  (App detail false loadingStep (resetApp st).1 = ret Home /\
   result (resetApp st).1 = None /\ error (resetApp st).1 = None /\
   isAnalyzing (resetApp st).1 = isAnalyzing st) /\
  App detail false loadingStep
    (run (afterAwait outcome) (resetApp (run (beforeAwait base64Image) st)).1) =
    ret Home.
Proof.
  split; [done|]. by destruct outcome.
Qed.

(** The loading step stays inside the list of phrases: after [n] ticks from
    0 it is [n mod 4], so the overlay always finds its phrase and the page
    never throws. *)
Theorem loading_step_stays_in_range
    (detail : value -> completion view) (n : nat) (showSplash : bool) (st : app) :
  Nat.iter n nextLoadingStep 0 = N.of_nat n mod 4 /\
  is_Some (loadingStages !! N.to_nat (Nat.iter n nextLoadingStep 0)) /\
  exists page, App detail showSplash (Nat.iter n nextLoadingStep 0) st = ret page.
Proof.
  assert (Nat.iter n nextLoadingStep 0 = N.of_nat n mod 4) as Hstep.
  { induction n as [|n IH]; [done|].
    rewrite Nat.iter_succ, IH. unfold nextLoadingStep. simpl length.
    change (N.of_nat 4) with 4. rewrite Nat2N.inj_succ, <- N.add_1_r.
    by rewrite N.Div0.add_mod_idemp_l. }
  assert (is_Some (loadingStages !! N.to_nat (Nat.iter n nextLoadingStep 0)))
    as [phrase Hphrase].
  { rewrite Hstep. apply lookup_lt_is_Some. simpl.
    pose proof (N.mod_upper_bound (N.of_nat n) 4). lia. }
  split; [done|]. split; [by eexists|].
  unfold App. destruct showSplash; [by eexists|].
  destruct (shown (selectedImage st)); [|by eexists].
  rewrite Hphrase. destruct (isAnalyzing st); by eexists.
Qed.

(** From the uploader to the service: a file that fails validation starts no
    run of the handler, so nothing is requested and no state is written; a
    file that passes and is read hands its text to the handler once. *)
Theorem rejected_file_reaches_no_handler
    (SUPPORTED_IMAGE_TYPES : list jsstring) (MAX_IMAGE_SIZE_MB : N)
    (key : option jsstring) (generateContent : request -> completion (option jsstring))
    (JSON_parse : jsstring -> option value)
    (file rejected : File) (outcome : reader_outcome) (text : jsstring) :
  type rejected ∉ SUPPORTED_IMAGE_TYPES \/
    MAX_IMAGE_SIZE_MB * 1024 * 1024 < size rejected ->
  type file ∈ SUPPORTED_IMAGE_TYPES ->
  size file <= MAX_IMAGE_SIZE_MB * 1024 * 1024 ->
  text <> [] ->
  onImageSelect key generateContent JSON_parse
    (processFile SUPPORTED_IMAGE_TYPES MAX_IMAGE_SIZE_MB rejected outcome) = [] /\
  onImageSelect key generateContent JSON_parse
    (processFile SUPPORTED_IMAGE_TYPES MAX_IMAGE_SIZE_MB file (Load (RString text))) =
    handleImageSelect key generateContent JSON_parse text.
Proof.
  intros Hrej Htype Hsize Htext. unfold onImageSelect, processFile. split.
  - destruct (bool_decide (type rejected ∈ SUPPORTED_IMAGE_TYPES)) eqn:Hdec; simpl;
      [|done].
    apply bool_decide_eq_true in Hdec. destruct Hrej as [Hrej|Hrej]; [done|].
    apply N.ltb_lt in Hrej. by rewrite Hrej.
  - rewrite bool_decide_true by done. simpl.
    destruct (N.ltb_spec (MAX_IMAGE_SIZE_MB * 1024 * 1024) (size file)); [lia|].
    destruct text as [|c text]; [done|]. simpl. by rewrite app_nil_r.
Qed.

Lemma rejected_file_reaches_no_handler_witness :
  onImageSelect (Some (js "k")) (answering (js "{}")) (readingAs neem)
    (processFile sampleTypes sampleLimit textFile ReadFailed) = [].
Proof.
  apply (rejected_file_reaches_no_handler sampleTypes sampleLimit (Some (js "k"))
           (answering (js "{}")) (readingAs neem) smallPng textFile ReadFailed
           (js "data:image/png;base64,AAAA")).
  - left. by apply (bool_decide_unpack (_ ∉ _)).
  - by apply (bool_decide_unpack (_ ∈ _)).
  - vm_compute. discriminate.
  - discriminate.
Defined.

(** ** Drops and the file input *)

(** However many files are dropped or chosen, only the first one is looked
    at: a drop or a change gives at most one message or one read, at most
    one image, and a drop leaves the highlight off. *)
Theorem only_the_first_file_is_processed
    (SUPPORTED_IMAGE_TYPES : list jsstring) (MAX_IMAGE_SIZE_MB : N)
    (files : option (list File)) (outcome : reader_outcome) :
  let dropped := handleDrop SUPPORTED_IMAGE_TYPES MAX_IMAGE_SIZE_MB files outcome in
  dropped.1 = false /\
  dropped.2 = handleChange SUPPORTED_IMAGE_TYPES MAX_IMAGE_SIZE_MB files outcome /\
  dropped.2 =
    handleChange SUPPORTED_IMAGE_TYPES MAX_IMAGE_SIZE_MB (take 1 <$> files) outcome /\
  (dropped.2 = [] \/ (exists message, dropped.2 = [Alert message]) \/
   exists file rest,
     files = Some (file :: rest) /\ dropped.2 = ReadAsDataURL file :: onload outcome) /\
  (length (selections dropped.2) <= 1)%nat.
Proof.
  simpl. split; [done|]. split; [done|]. split; [by destruct files as [[|file rest]|]|].
  destruct files as [[|file rest]|]; simpl; try (split; [by left|lia]).
  unfold processFile.
  destruct (bool_decide (type file ∈ SUPPORTED_IMAGE_TYPES)); simpl.
  - destruct (MAX_IMAGE_SIZE_MB * 1024 * 1024 <? size file); simpl.
    + split; [|lia]. right; left. by eexists.
    + split; [right; right; by exists file, rest|].
      destruct outcome as [[| s |]|]; simpl; try lia.
      destruct (nonempty s); simpl; lia.
  - split; [|lia]. right; left. by eexists.
Qed.

(** ** Opening the camera *)

(** The device is asked at most twice: not at all without the camera API,
    once when the first request is granted, and for the basic stream only
    after the first request failed. *)
Theorem camera_requests_in_order
    (toLowerCase : jsstring -> jsstring) (env : camera_env) (w : world) :
  omap (fun e => match e with GetUserMedia c => Some c | _ => None end)
    (startCamera toLowerCase env w).2 =
  if negb (mediaDevices env) then []
  else match getUserMedia env Ideal with
       | inr _ => [Ideal]
       | inl _ => [Ideal; Basic]
       end.
Proof.
  unfold startCamera. destruct (mediaDevices env); simpl; [|done].
  destruct (getUserMedia env Ideal); [|done].
  by destruct (getUserMedia env Basic).
Qed.

Lemma cameraErrorMessage_cases (toLowerCase : jsstring -> jsstring) (err : media_error) :
  cameraErrorMessage toLowerCase err ∈
    [deniedMessage; noDeviceMessage; busyMessage; dismissedMessage;
     deviceNotFoundMessage; unavailableMessage] /\
  nonempty (cameraErrorMessage toLowerCase err) = true.
Proof.
  unfold cameraErrorMessage. cbv zeta.
  repeat match goal with
         | |- context [if ?b then _ else _] => destruct b
         end;
    (split; [|reflexivity]); set_solver.
Qed.

(** When both requests fail the camera view shows the error panel with one
    of six messages, chosen from the error of the second request (a
    [NotAllowedError] gives the permission message whatever its text); the
    stream handle and the device are left as they were. *)
Theorem failed_camera_shows_error_panel
    (toLowerCase : jsstring -> jsstring) (env : camera_env) (w : world)
    (warned err : media_error) (dragActive : bool) :
  mediaDevices env = true ->
  getUserMedia env Ideal = inl warned ->
  getUserMedia env Basic = inl err ->
  let w' := (startCamera toLowerCase env w).1 in
  cameraError w'.1 = Some (cameraErrorMessage toLowerCase err) /\
  cameraErrorMessage toLowerCase err ∈
    [deniedMessage; noDeviceMessage; busyMessage; dismissedMessage;
     deviceNotFoundMessage; unavailableMessage] /\
  (err_name err = js "NotAllowedError" ->
   cameraErrorMessage toLowerCase err = deniedMessage) /\
  stream w'.1 = stream w.1 /\ w'.2 = w.2 /\
  ImageUploader dragActive w'.1 =
    CameraView (isFlashing w.1) false
      (ErrorPanel (cameraErrorMessage toLowerCase err)) /\
  controls (ImageUploader dragActive w'.1) = [TryAgain; Cancel].
Proof.
  intros Hapi Hideal Hbasic. unfold startCamera. rewrite Hapi, Hideal, Hbasic. simpl.
  destruct (cameraErrorMessage_cases toLowerCase err) as [Hin Hne].
  split; [done|]. split; [done|]. split.
  { intros Hname. unfold cameraErrorMessage. by rewrite Hname. }
  split; [done|]. split; [done|].
  unfold ImageUploader. simpl. rewrite Hne. simpl.
  rewrite andb_false_r. done.
Qed.

Lemma failed_camera_shows_error_panel_witness :
  ImageUploader false (startCamera asciiLower refusingPage (closedCamera, ∅)).1.1 =
    CameraView false false (ErrorPanel deniedMessage).
Proof.
  destruct (failed_camera_shows_error_panel asciiLower refusingPage (closedCamera, ∅)
              permissionDenied permissionDenied false)
    as (_ & _ & Hname & _ & _ & Hview & _).
  - reflexivity.
  - reflexivity.
  - reflexivity.
  - rewrite Hview, Hname by reflexivity. reflexivity.
Defined.

(** When a request is granted (the first, or the basic one after the first
    failed) the stream is kept, an earlier error is gone, its tracks run and
    the view offers Close and Take Photo; closing then releases exactly that
    stream and brings the drop zone back. *)
Theorem granted_camera_goes_live
    (toLowerCase : jsstring -> jsstring) (env : camera_env) (w : world)
    (granted : mediaStream) (dragActive : bool) :
  mediaDevices env = true ->
  getUserMedia env Ideal = inr granted \/
    ((exists warned, getUserMedia env Ideal = inl warned) /\
     getUserMedia env Basic = inr granted) ->
  let w' := (startCamera toLowerCase env w).1 in
  stream w'.1 = Some granted /\ cameraError w'.1 = None /\
  w'.2 = w.2 ∪ list_to_set granted /\
  ImageUploader dragActive w'.1 = CameraView (isFlashing w.1) false (Video true) /\
  controls (ImageUploader dragActive w'.1) = [CloseCamera; TakePhoto] /\
  released granted (stopCamera (stream w'.1) w') /\
  ImageUploader dragActive (stopCamera (stream w'.1) w').1 = DropZone dragActive.
Proof.
  intros Hapi Hgranted. unfold startCamera. rewrite Hapi. simpl.
  assert (forall w0 : world,
            let w1 := setStream (Some granted) (acquire granted w0) in
            stream w1.1 = Some granted /\ w1.2 = w0.2 ∪ list_to_set granted /\
            released granted (stopCamera (stream w1.1) w1) /\
            ImageUploader dragActive (stopCamera (stream w1.1) w1).1 =
              DropZone dragActive) as Hlive.
  { intros w0. split; [done|]. split; [done|]. split; [|done].
    apply (stopCamera_releases granted (setStream (Some granted) (acquire granted w0))). }
  destruct Hgranted as [-> | [[warned ->] ->]]; simpl;
    (destruct (Hlive (setIsCameraOpen true (setCameraError None w)))
       as (Hs & Hl & Hr & Hv));
    repeat split; try done; apply Hr.
Qed.

Lemma granted_camera_goes_live_witness :
  stream (startCamera asciiLower basicOnlyPage (closedCamera, ∅)).1.1 =
    Some [3%nat; 4%nat] /\
  controls (ImageUploader false
              (startCamera asciiLower basicOnlyPage (closedCamera, ∅)).1.1) =
    [CloseCamera; TakePhoto].
Proof.
  destruct (granted_camera_goes_live asciiLower basicOnlyPage (closedCamera, ∅)
              [3%nat; 4%nat] false)
    as (Hstream & _ & _ & _ & Hcontrols & _).
  - reflexivity.
  - right. split; [by eexists|reflexivity].
  - split; [exact Hstream | exact Hcontrols].
Defined.

(** Take Photo and Close are offered exactly when the camera is open with a
    stream and no error; while the camera is starting no button is offered
    at all; and after [stopCamera] the drop zone is shown, whatever the
    state was. *)
Theorem capture_is_offered_only_when_live (dragActive : bool) (c : camera) :
  (TakePhoto ∈ controls (ImageUploader dragActive c) <->
   isCameraOpen c = true /\ is_Some (stream c) /\ shown (cameraError c) = None) /\
  (isCameraOpen c = true -> stream c = None -> shown (cameraError c) = None ->
   ImageUploader dragActive c = CameraView (isFlashing c) true (Video false) /\
   controls (ImageUploader dragActive c) = []) /\
  (forall closure live,
     ImageUploader dragActive (stopCamera closure (c, live)).1 = DropZone dragActive).
Proof.
  split; [|split].
  - unfold ImageUploader. destruct (isCameraOpen c); simpl.
    + destruct (shown (cameraError c)) as [message|]; simpl.
      * split; [set_solver|]. by intros (_ & _ & ?).
      * destruct (stream c) as [tracks|]; simpl.
        -- split; [by intros _; repeat split; eexists|set_solver].
        -- split; [set_solver|]. by intros (_ & [? ?] & _).
    + split; [set_solver|]. by intros (? & _).
  - intros Hopen Hstream Herror. unfold ImageUploader.
    by rewrite Hopen, Hstream, Herror.
  - intros closure live. unfold stopCamera. by destruct closure.
Qed.

Lemma capture_is_offered_only_when_live_witness :
  TakePhoto ∈ controls (ImageUploader false liveCamera) /\
  controls (ImageUploader false
              {| stream := None; isCameraOpen := true;
                 cameraError := None; isFlashing := false |}) = [].
Proof.
  split.
  - apply (proj1 (capture_is_offered_only_when_live false liveCamera)).
    repeat split. by eexists.
  - apply (proj1 (proj2 (capture_is_offered_only_when_live false
             {| stream := None; isCameraOpen := true;
                cameraError := None; isFlashing := false |}))); reflexivity.
Defined.

(** The cleanup of the stream effect stops every track of its stream and
    touches no state; after [stopCamera] it changes nothing more, and after
    any capture, failed or not, it leaves no track of the stream running. *)
Theorem stream_cleanup_stops_the_tracks
    (tracks : mediaStream) (w : world) (env : capture_env) :
  streamCleanup (Some tracks) w = (w.1, w.2 ∖ list_to_set tracks) /\
  streamCleanup (Some tracks) (stopCamera (Some tracks) w) =
    stopCamera (Some tracks) w /\
  (streamCleanup (Some tracks) (capturePhoto env (Some tracks) w).1).2 =
    w.2 ∖ list_to_set tracks.
Proof.
  unfold streamCleanup. rewrite !stopTracks_removes. split; [done|]. split.
  - rewrite stopCamera_some. simpl. f_equal. apply set_eq. set_solver.
  - simpl. unfold capturePhoto, captureClick, captureTimer.
    destruct (videoRef w.1 && (0 <? videoWidth env)); [|done].
    destruct (videoRef (setIsFlashing true w).1); simpl; [|done].
    destruct (context2d env); simpl; [|done].
    rewrite stopTracks_removes. simpl. apply set_eq. set_solver.
Qed.

(** A timer that fires after the camera was closed (a cancel between the
    click and the timer) finds no video element and does nothing: no image
    is handed on, and state and device stay as [stopCamera] left them. *)
Theorem timer_after_close_does_nothing
    (env : capture_env) (clickStream closeStream : option mediaStream) (w : world) :
  captureTimer env clickStream (stopCamera closeStream w) =
    (stopCamera closeStream w, []).
Proof. unfold captureTimer, videoRef, stopCamera. by destruct closeStream. Qed.

(** ** The parts of the detail view *)

(** [includes] is the search for a substring. *)
Lemma includes_spec (s sub : jsstring) :
  includes s sub = true <-> exists a b, s = a ++ sub ++ b.
Proof.
  split.
  - induction s as [|c s IH]; cbn [includes].
    + destruct (strip_prefix sub []) as [rest|] eqn:E; [|done].
      intros _. apply strip_prefix_Some in E. by exists [], rest.
    + destruct (strip_prefix sub (c :: s)) as [rest|] eqn:E.
      * intros _. apply strip_prefix_Some in E. by exists [], rest.
      * intros (a & b & ->)%IH. by exists (c :: a), b.
  - intros (a & b & ->). induction a as [|c a IH].
    + assert (strip_prefix sub (sub ++ b) = Some b) as E by apply strip_prefix_app.
      simpl. destruct (sub ++ b); cbn [includes]; by rewrite E.
    + simpl. cbn [includes]. rewrite IH. by destruct (strip_prefix _ _).
Qed.

(** The icon of a preparation method goes by substrings of the lower-cased
    name, in the order of the source: a name with a word of the cooking
    group in it gets the cooking pot whatever else it holds, and the scroll
    is left for the names that hold none of the twenty-six words. *)
Theorem method_icon_goes_by_first_group
    (toLowerCase : jsstring -> jsstring) (methodName : jsstring) :
  (forall word a b,
     word ∈ [js "decoction"; js "boil"; js "soup"; js "kashayam"; js "cook"] ->
     toLowerCase methodName = a ++ word ++ b ->
     getMethodIcon toLowerCase methodName = CookingPot) /\
  (getMethodIcon toLowerCase methodName = ScrollText ->
   forall word a b,
     word ∈ [js "decoction"; js "boil"; js "soup"; js "kashayam"; js "cook";
             js "tea"; js "infusion"; js "drink"; js "hot water";
             js "paste"; js "poultice"; js "chutney"; js "kalka"; js "ground";
             js "oil"; js "juice"; js "extract"; js "ghee"; js "swarasa";
             js "powder"; js "churna"; js "dust"; js "ash";
             js "smoke"; js "burn"; js "bhasma"] ->
     toLowerCase methodName <> a ++ word ++ b).
Proof.
  unfold getMethodIcon. cbv zeta. set (name := toLowerCase methodName). split.
  - intros word a b Hword Hname.
    assert (includes name word = true) as Hinc by (apply includes_spec; eauto).
    repeat (apply elem_of_cons in Hword as [->|Hword];
            [rewrite Hinc; by rewrite ?orb_true_r|]).
    by apply elem_of_nil in Hword.
  - repeat match goal with
           | |- context [includes name ?k] =>
               destruct (includes name k) eqn:?; simpl; [intros H; discriminate H|]
           end.
    intros _ word a b Hword Hname.
    assert (includes name word = true) as Hinc by (apply includes_spec; eauto).
    repeat (apply elem_of_cons in Hword as [->|Hword]; [congruence|]).
    by apply elem_of_nil in Hword.
Qed.

Lemma method_icon_goes_by_first_group_witness :
  getMethodIcon asciiLower (js "Boiled Leaf Paste") = CookingPot /\
  asciiLower (js "Fresh Leaves") <> js "fr" ++ js "ash" ++ js "".
Proof.
  destruct (method_icon_goes_by_first_group asciiLower (js "Boiled Leaf Paste"))
    as [Hpot _].
  destruct (method_icon_goes_by_first_group asciiLower (js "Fresh Leaves"))
    as [_ Hscroll].
  split.
  - apply (Hpot (js "boil") [] (js "ed leaf paste")); [set_solver|reflexivity].
  - apply Hscroll; [reflexivity|set_solver].
Defined.





(** The share action uses at most one channel: the platform's share sheet
    when there is one, and then neither the clipboard nor the "copied" mark;
    otherwise one write to the clipboard when the page has one, and only a
    log line when it has none; the mark is set, and taken back, only after a
    write that succeeded. *)
Theorem share_uses_one_channel
    (toString : value -> jsstring) (env : share_env) (data : value)
    (text : jsstring) :
  shareText toString data = ret text ->
  exists events,
    handleShare toString env data = ret events /\
    (if hasShare env
     then exists title, events = [NavigatorShare title text]
     else events =
            match clipboard env with
            | Some true => [ClipboardWrite text; SetCopied true; SetCopied false]
            | Some false => [ClipboardWrite text; ShareConsoleError]
            | None => [ShareConsoleError]
            end) /\
    (SetCopied true ∈ events <-> hasShare env = false /\ clipboard env = Some true) /\
    (ClipboardWrite text ∈ events <->
     hasShare env = false /\ clipboard env <> None).
Proof.
  intros Htext. unfold handleShare. rewrite Htext. simpl.
  assert (exists name, Get data commonName = ret name) as [name Hname].
  { unfold shareText in Htext. destruct (Get data commonName) as [e|name]; [done|].
    by eexists. }
  rewrite Hname. simpl.
  destruct (hasShare env); simpl.
  - eexists. split; [done|]. split; [by eexists|].
    split; (split; [set_solver|]); by intros [? _].
  - destruct (clipboard env) as [[|]|]; eexists; (split; [done|]); (split; [done|]).
    + split; (split; [done|set_solver]).
    + split; [split; [set_solver|]; by intros [_ ?]|]. split; [done|set_solver].
    + split; [split; [set_solver|]; by intros [_ ?]|].
      split; [set_solver|]. by intros [_ ?].
Qed.

Lemma share_uses_one_channel_witness :
  exists text events,
    shareText plainToString tulsi = ret text /\
    handleShare plainToString {| hasShare := false; clipboard := None |} tulsi =
      ret events /\
    events = [ShareConsoleError].
Proof.
  destruct (shareText plainToString tulsi) as [e|text] eqn:Htext;
    [vm_compute in Htext; discriminate Htext|].
  destruct (share_uses_one_channel plainToString
              {| hasShare := false; clipboard := None |} tulsi text Htext)
    as (events & Hrun & Hevents & _).
  by exists text, events.
Defined.

Lemma take_four_twice {A} (l : list A) : take 4 (take 4 l) = take 4 l.
Proof. by rewrite take_take. Qed.

(** The shared text lists the first four uses only: uses beyond the fourth
    change nothing in it; and a record without [medicinalUses] is shared
    all the same, with the text of [undefined] under the heading. *)
Theorem share_text_takes_four_uses
    (toString : value -> jsstring) (props aprops : gmap (list N) value)
    (elems : list value) :
  (exists text,
     shareText toString (VObj (<[js "medicinalUses" := VArr elems aprops]> props)) =
       ret text) /\
  shareText toString (VObj (<[js "medicinalUses" := VArr elems aprops]> props)) =
    shareText toString
      (VObj (<[js "medicinalUses" := VArr (take 4 elems) aprops]> props)) /\
  usesLines toString (VObj (<[js "medicinalUses" := VArr elems aprops]> props)) =
    ret (VStr (join newline
                 ((fun u => bullet ++ js " " ++ toString u) <$> take 4 elems))) /\
  (props !! js "medicinalUses" = None ->
   usesLines toString (VObj props) = ret VUndef /\
   exists text, shareText toString (VObj props) = ret text).
Proof.
  unfold shareText, usesLines. simpl.
  rewrite !lookup_insert_eq. simpl.
  rewrite !lookup_insert_ne by done. rewrite take_four_twice.
  split; [by eexists|]. split; [done|]. split; [done|].
  intros ->. simpl. split; [done|]. by eexists.
Qed.

Lemma share_text_takes_four_uses_witness :
  usesLines plainToString neem = ret VUndef /\
  exists text, shareText plainToString neem = ret text.
Proof.
  apply (share_text_takes_four_uses plainToString
           (<[ identified := VBool true ]> {[ commonName := VStr (js "Neem") ]}) ∅ []).
  reflexivity.
Defined.
